(** * ads-stat: the report parser and statistics engine of [csv-parser.ts]

    A shallow embedding of [parseCSVData] (lib/csv-parser.ts) together with the
    JavaScript primitives it calls, followed by the properties the
    specification states about it.  The components that use its result
    follow: the logic of [DataTable] (filter, sort, pages, export), of
    [DataCharts] (the chart series), of [FileUpload] (which file gets
    through) and of [Home] (the upload flow), with the properties their
    code shows.

    Conventions of the embedding.
    - A JavaScript string is its sequence of UTF-16 code units ([list N]).
    - Every number the parser stores in a record comes from
      [parseInt(..) || 0] and is therefore integral; a field is carried as
      the integer [Z] its digits denote.
    - The results of arithmetic (the five totals, the two rates, the
      ratios of the charts) and of [Math.max] and [Math.min] are carried
      as [number]: a finite double, as the rational it is, or one of the
      three special values.  Sums, products and quotients round as
      binary64 does.
    - [throw] / [try .. catch] is an error monad, [completion].
    - [Papa.parse] is a library outside the repository; the parser is
      written in a Section over it.
    - The number of arguments an engine passes to one call is bounded, and
      [Math.max(...data.map(..))] raises beyond the bound; module [Engine]
      has the statistics block and the [try] block under such a bound. *)

From Stdlib Require Import String Ascii.
From Stdlib Require Import List ZArith NArith QArith Bool Lia.
From Stdlib Require Import Sorting.Sorted Sorting.Permutation.
From Stdlib Require Import Qround Qabs Lqa DecimalPos DecimalN DecimalZ.
Import ListNotations.

Local Open Scope Z_scope.

(* ================================================================== *)
(** ** JavaScript primitives *)
(* ================================================================== *)

Module JS.

(** A string: UTF-16 code units. *)
Definition jsstring := list N.

(** WhiteSpace and LineTerminator code points of ECMAScript, the set that
    [String.prototype.trim] and [parseInt] strip. *)
Definition isWhiteSpace (c : N) : bool :=
  (((9 <=? c) && (c <=? 13)) || (c =? 32) || (c =? 160) || (c =? 5760)
   || ((8192 <=? c) && (c <=? 8202)) || (c =? 8232) || (c =? 8233)
   || (c =? 8239) || (c =? 8287) || (c =? 12288) || (c =? 65279))%N.

Fixpoint trimStart (s : jsstring) : jsstring :=
  match s with
  | c :: r => if isWhiteSpace c then trimStart r else s
  | [] => []
  end.

Definition trimEnd (s : jsstring) : jsstring := rev (trimStart (rev s)).

(** [s.trim()] *)
Definition trim (s : jsstring) : jsstring := trimEnd (trimStart s).

(** Truthiness of a string: non-empty. *)
Definition truthy (s : jsstring) : bool :=
  match s with [] => false | _ :: _ => true end.

(** [s.split(sep)] for a separator of one code unit.  The result is never
    empty: the empty string splits into one empty string. *)
Fixpoint split (sep : N) (s : jsstring) : list jsstring :=
  match s with
  | [] => [[]]
  | c :: r =>
      if (c =? sep)%N then [] :: split sep r
      else match split sep r with
           | h :: t => (c :: h) :: t
           | [] => [[c]]
           end
  end.

Fixpoint startsWith (p s : jsstring) : bool :=
  match p, s with
  | [], _ => true
  | _ :: _, [] => false
  | a :: p', b :: s' => (a =? b)%N && startsWith p' s'
  end.

(** [s.includes(p)] *)
Fixpoint includes (p s : jsstring) : bool :=
  startsWith p s ||
  match s with
  | [] => false
  | _ :: r => includes p r
  end.

(** Value of a code unit as a digit of the given radix (10 or 16). *)
Definition digitValue (radix : Z) (c : N) : option Z :=
  let z := Z.of_N c in
  if (48 <=? z) && (z <=? 57) then Some (z - 48)
  else if (radix =? 16) && (97 <=? z) && (z <=? 102) then Some (z - 87)
  else if (radix =? 16) && (65 <=? z) && (z <=? 70) then Some (z - 55)
  else None.

(** The longest prefix of radix digits, as digit values. *)
Fixpoint takeDigits (radix : Z) (s : jsstring) : list Z :=
  match s with
  | [] => []
  | c :: r =>
      match digitValue radix c with
      | Some d => d :: takeDigits radix r
      | None => []
      end
  end.

Definition digitsValue (radix : Z) (ds : list Z) : Z :=
  fold_left (fun acc d => acc * radix + d) ds 0.

(** [parseInt(s)] with no radix argument; [None] is NaN.  The result is the
    integer that the sign and the digits denote.  The number the code gets
    is the double nearest to that integer ([toDouble] below): the integer
    itself up to 2^53 in absolute value, infinite from 309 digits or so. *)
Definition parseInt (s : jsstring) : option Z :=
  let s1 := trimStart s in
  let '(sign, s2) :=
    match s1 with
    | 45%N :: r => (-1, r)
    | 43%N :: r => (1, r)
    | _ => (1, s1)
    end in
  let '(radix, s3) :=
    match s2 with
    | 48%N :: 120%N :: r => (16, r)
    | 48%N :: 88%N :: r => (16, r)
    | _ => (10, s2)
    end in
  match takeDigits radix s3 with
  | [] => None
  | ds => Some (sign * digitsValue radix ds)
  end.

(** [parseInt(s) || 0]: NaN and 0 are falsy. *)
Definition parseIntOr0 (s : jsstring) : Z :=
  match parseInt s with
  | Some z => z
  | None => 0
  end.

(** A number that need not be an integer. *)
Inductive number : Type :=
| Num (q : Q)
| PosInfinity
| NegInfinity
| NaN.

Definition ofInt (z : Z) : number := Num (inject_Z z).

(** [a / b] on integral operands, as the rational it is before rounding;
    for the quotient of an array length by a page size, of which the code
    takes the ceiling. *)
Definition div (a b : Z) : number :=
  if b =? 0 then
    if a =? 0 then NaN
    else if 0 <? a then PosInfinity else NegInfinity
  else Num (inject_Z a / inject_Z b).

Definition isFinite (x : number) : bool :=
  match x with Num _ => true | _ => false end.

(** *** Binary64 arithmetic

    The arithmetic operators work on doubles: the result of an operation
    on finite operands is the exact result rounded to the nearest double,
    ties going to the even significand, and infinite from 2^1024 - 2^970
    on.  A finite double is carried as the rational it is, in lowest
    terms.  (Minus zero is not told from zero.) *)

(** The floor of the binary logarithm of n/d, for positive n and d. *)
Definition floorLog2 (n d : Z) : Z :=
  let k := Z.log2 n - Z.log2 d in
  if (if 0 <=? k then d * 2 ^ k <=? n else d <=? n * 2 ^ (- k))
  then k else k - 1.

(** n/d rounded to a multiple of 2^e, the nearest one, and of two nearest
    ones the even multiple. *)
Definition roundAt (e n d : Z) : Q :=
  let up := 2 ^ Z.max e 0 in
  let down := 2 ^ Z.max (- e) 0 in
  let m := (n * down) / (d * up) in
  let r := (n * down) mod (d * up) in
  let m' := if (d * up <? 2 * r) || ((d * up =? 2 * r) && Z.odd m)
            then m + 1 else m in
  Qred (Qmake (m' * up) (Z.to_pos down)).

(** The double nearest to n/d, for positive n and d and n/d below the
    overflow threshold: a significand of 53 bits at most times a power of
    two of exponent -1074 at least. *)
Definition roundPositive (n d : Z) : Q :=
  roundAt (Z.max (floorLog2 n d - 52) (-1074)) n d.

Definition overflowBound : Z := 2 ^ 1024 - 2 ^ 970.

(** Rounding of an exact result to a double. *)
Definition roundToDouble (q : Q) : number :=
  let n := Qnum q in
  let d := Zpos (Qden q) in
  if n =? 0 then Num 0
  else if overflowBound * d <=? Z.abs n then
    if 0 <? n then PosInfinity else NegInfinity
  else if 0 <? n then Num (roundPositive n d)
  else Num (- roundPositive (- n) d).

(** The double of the integer [z]: the number that [parseInt] returns for
    digits that denote [z], and the value that arithmetic reads from a
    field holding [z]. *)
Definition toDouble (z : Z) : number := roundToDouble (inject_Z z).

(** [x + y] *)
Definition add (x y : number) : number :=
  match x, y with
  | NaN, _ | _, NaN => NaN
  | PosInfinity, NegInfinity | NegInfinity, PosInfinity => NaN
  | PosInfinity, _ | _, PosInfinity => PosInfinity
  | NegInfinity, _ | _, NegInfinity => NegInfinity
  | Num p, Num q => roundToDouble (p + q)
  end.

(** The sign of a number that is not NaN: -1, 0 or 1. *)
Definition signum (x : number) : Z :=
  match x with
  | Num q => Z.sgn (Qnum q)
  | PosInfinity => 1
  | NegInfinity => -1
  | NaN => 0
  end.

Definition infinityOf (sign : Z) : number :=
  if sign <? 0 then NegInfinity else PosInfinity.

(** [x * y] *)
Definition multiply (x y : number) : number :=
  match x, y with
  | NaN, _ | _, NaN => NaN
  | Num p, Num q => roundToDouble (p * q)
  | _, _ =>
      if signum x * signum y =? 0 then NaN
      else infinityOf (signum x * signum y)
  end.

(** [x / y] *)
Definition divide (x y : number) : number :=
  match x, y with
  | NaN, _ | _, NaN => NaN
  | Num p, Num q =>
      if Qnum q =? 0 then
        if Qnum p =? 0 then NaN else infinityOf (Qnum p)
      else roundToDouble (p / q)
  | Num _, _ => Num 0
  | _, Num _ => infinityOf (signum x * (if signum y <? 0 then -1 else 1))
  | _, _ => NaN
  end.

(** [x > y] *)
Definition gt (x y : number) : bool :=
  match x, y with
  | NaN, _ | _, NaN => false
  | Num p, Num q => negb (Qle_bool p q)
  | PosInfinity, PosInfinity => false
  | PosInfinity, _ => true
  | _, PosInfinity => false
  | NegInfinity, _ => false
  | Num _, NegInfinity => true
  end.

(** [Math.max(...xs)]: minus infinity when called with no argument, the
    greatest element otherwise.  (How many elements a call can take is in
    module [Engine] below.) *)
Definition Math_max (xs : list Z) : number :=
  match xs with
  | [] => NegInfinity
  | x :: r => ofInt (fold_left Z.max r x)
  end.

(** [Math.min(...xs)]: plus infinity when called with no argument. *)
Definition Math_min (xs : list Z) : number :=
  match xs with
  | [] => PosInfinity
  | x :: r => ofInt (fold_left Z.min r x)
  end.

(** [Array.prototype.sort(cmp)].  ECMAScript requires the sort to be stable,
    and for a consistent comparator the stable sorted arrangement is unique,
    so any stable algorithm models it; this one inserts from the right.
    [x] goes before [y] when [cmp x y <= 0]: on a tie the element that came
    first stays first. *)
Section Sort.
Context {A : Type} (cmp : A -> A -> Z).

Fixpoint insert (x : A) (l : list A) : list A :=
  match l with
  | [] => [x]
  | y :: r => if cmp x y <=? 0 then x :: l else y :: insert x r
  end.

Definition sort (l : list A) : list A := fold_right insert [] l.

End Sort.

(** Code units of an ASCII literal. *)
Definition lit (s : string) : jsstring :=
  map (fun a => N_of_ascii a) (list_ascii_of_string s).

End JS.

(* ================================================================== *)
(** ** Data model (the interfaces of csv-parser.ts) *)
(* ================================================================== *)

Import JS.

Record AdData : Type := mkAdData {
  order : Z;
  keyword : jsstring;
  keywordType : jsstring;
  searchCommand : jsstring;
  biddingMethod : jsstring;
  views : Z;
  clicks : Z;
  clickRate : jsstring;
  conversions : Z;
  directConversions : Z;
  conversionRate : jsstring;
  directConversionRate : jsstring;
  costPerConversion : jsstring;
  directCostPerConversion : jsstring;
  productsSold : Z;
  directProductsSold : Z;
  gmv : Z;
  directGmv : Z;
  cost : Z;
  averageRank : Z;
  roas : jsstring;
  directRoas : jsstring;
  acos : jsstring;
  directAcos : jsstring
}.

Record AdReportHeader : Type := mkAdReportHeader {
  reportTitle : jsstring;
  username : jsstring;
  storeName : jsstring;
  sellerId : jsstring;
  adName : jsstring;
  productId : jsstring;
  reportCreationTime : jsstring;
  timeRange : jsstring
}.

(** An element of [statistics.topKeywords]. *)
Record TopKeyword : Type := mkTopKeyword {
  tkKeyword : jsstring;
  tkViews : Z;
  tkClicks : Z;
  tkCost : Z
}.

(** The shape shared by [statistics.maxValues] and [statistics.minValues]. *)
Record Extremes : Type := mkExtremes {
  exViews : number;
  exClicks : number;
  exCost : number;
  exGmv : number
}.

Record Statistics : Type := mkStatistics {
  totalViews : number;
  totalClicks : number;
  totalCost : number;
  totalGmv : number;
  totalConversions : number;
  averageClickRate : number;
  averageConversionRate : number;
  topKeywords : list TopKeyword;
  maxValues : Extremes;
  minValues : Extremes
}.

Record ParsedAdData : Type := mkParsedAdData {
  header : AdReportHeader;
  data : list AdData;
  statistics : Statistics
}.

(** The four metrics that have a maximum and a minimum. *)
Inductive metric : Type := Views | Clicks | Cost | Gmv.

Definition metricOf (m : metric) (item : AdData) : Z :=
  match m with
  | Views => views item
  | Clicks => clicks item
  | Cost => cost item
  | Gmv => gmv item
  end.

Definition extremeOf (m : metric) (e : Extremes) : number :=
  match m with
  | Views => exViews e
  | Clicks => exClicks e
  | Cost => exCost e
  | Gmv => exGmv e
  end.

(* ================================================================== *)
(** ** Exceptions *)
(* ================================================================== *)

(** What a [throw] carries: an [Error] built by the parser itself, or
    whatever the field splitter raised. *)
Inductive exn : Type :=
| Error (message : string)
| Foreign (code : N).

Inductive completion (A : Type) : Type :=
| Normal (a : A)
| Throw (e : exn).

Arguments Normal {A} a.
Arguments Throw {A} e.

Definition bind {A B : Type} (c : completion A) (k : A -> completion B)
  : completion B :=
  match c with
  | Normal a => k a
  | Throw e => Throw e
  end.

Notation "x <- c ;; k" := (bind c (fun x => k))
  (at level 61, c at next level, right associativity).

(** [try { body } catch (error) { console.error(..); return null; }] *)
Definition tryOrNull {A : Type} (body : completion A) : option A :=
  match body with
  | Normal a => Some a
  | Throw _ => None
  end.

(* ================================================================== *)
(** ** parseCSVData *)
(* ================================================================== *)

(** The column-header line that opens the data section:
    'Thứ tự,Từ khóa,Loại từ khóa' as UTF-16 code units. *)
Definition marker : jsstring :=
  [84; 104; 7913; 32; 116; 7921; 44; 84; 7915; 32; 107; 104; 243; 97; 44;
   76; 111; 7841; 105; 32; 116; 7915; 32; 107; 104; 243; 97]%N.

Definition newline : N := 10%N.
Definition comma : N := 44%N.

(** [csvText.split('\n').filter((line) => line.trim())] *)
Definition nonBlankLines (csvText : jsstring) : list jsstring :=
  filter (fun line => truthy (trim line)) (split newline csvText).

(** [lines[i]?.split(',')[1] || ''] *)
Definition secondField (lines : list jsstring) (i : nat) : jsstring :=
  match nth_error lines i with
  | Some line => nth 1 (split comma line) []
  | None => []
  end.

(** The [header] object literal. *)
Definition parseHeader (lines : list jsstring) : AdReportHeader :=
  {| reportTitle := nth 0 lines [];
     username := secondField lines 1;
     storeName := secondField lines 2;
     sellerId := secondField lines 3;
     adName := secondField lines 4;
     productId := secondField lines 5;
     reportCreationTime := secondField lines 7;
     timeRange := secondField lines 8 |}.

(** The scan loop: [lines] is what is left to visit from index [i] on;
    the result is the value of [dataStartIndex] when the loop is left, -1
    when no line holds the marker. *)
Fixpoint scanFrom (i : nat) (lines : list jsstring) : Z :=
  match lines with
  | [] => -1
  | line :: rest =>
      if includes marker line then Z.of_nat i + 1 else scanFrom (S i) rest
  end.

Definition findDataStartIndex (lines : list jsstring) : Z := scanFrom 0 lines.

(** [lines.slice(start)] for [start >= 0]. *)
Definition slice (start : Z) (lines : list jsstring) : list jsstring :=
  skipn (Z.to_nat start) lines.

(** The [adData] object literal built from a row of at least 24 fields. *)
Definition toAdData (row : list jsstring) : AdData :=
  let str k := nth k row [] in
  let int k := parseIntOr0 (nth k row []) in
  {| order := int 0%nat;
     keyword := str 1%nat;
     keywordType := str 2%nat;
     searchCommand := str 3%nat;
     biddingMethod := str 4%nat;
     views := int 5%nat;
     clicks := int 6%nat;
     clickRate := str 7%nat;
     conversions := int 8%nat;
     directConversions := int 9%nat;
     conversionRate := str 10%nat;
     directConversionRate := str 11%nat;
     costPerConversion := str 12%nat;
     directCostPerConversion := str 13%nat;
     productsSold := int 14%nat;
     directProductsSold := int 15%nat;
     gmv := int 16%nat;
     directGmv := int 17%nat;
     cost := int 18%nat;
     averageRank := int 19%nat;
     roas := str 20%nat;
     directRoas := str 21%nat;
     acos := str 22%nat;
     directAcos := str 23%nat |}.

(** [data.reduce((sum, item) => sum + item.f, 0)] *)
Definition sumOf (f : AdData -> Z) (data : list AdData) : number :=
  fold_left (fun sum item => add sum (toDouble (f item))) data (ofInt 0).

(** The comparator [(a, b) => b.views - a.views]. *)
Definition byViewsDesc (a b : AdData) : Z := views b - views a.

Definition toTopKeyword (item : AdData) : TopKeyword :=
  {| tkKeyword := keyword item;
     tkViews := views item;
     tkClicks := clicks item;
     tkCost := cost item |}.

(** [data.filter((item) => item.f > 0).map((item) => item.f)] *)
Definition nonZero (f : AdData -> Z) (data : list AdData) : list Z :=
  map f (filter (fun item => f item >? 0) data).

(** [xs.length > 0 ? Math.min(...xs) : 0] *)
Definition minOrZero (xs : list Z) : number :=
  if (0 <? length xs)%nat then Math_min xs else ofInt 0.

(** [den > 0 ? (num / den) * 100 : 0] *)
Definition rate (num den : number) : number :=
  if gt den (ofInt 0) then multiply (divide num den) (ofInt 100)
  else ofInt 0.

(** The statistics block of [parseCSVData] as a function of the [data]
    array.  [data.sort(..)] sorts the array in place, so every later use of
    [data], the [data] field of the result included, sees the sorted array:
    the function returns that array next to the statistics object. *)
Definition calculateStatistics (data : list AdData)
  : list AdData * Statistics :=
  let totalViews := sumOf views data in
  let totalClicks := sumOf clicks data in
  let totalCost := sumOf cost data in
  let totalGmv := sumOf gmv data in
  let totalConversions := sumOf conversions data in
  let averageClickRate := rate totalClicks totalViews in
  let averageConversionRate := rate totalConversions totalClicks in
  let data := sort byViewsDesc data in
  let topKeywords := map toTopKeyword (firstn 10 data) in
  let maxValues :=
    {| exViews := Math_max (map views data);
       exClicks := Math_max (map clicks data);
       exCost := Math_max (map cost data);
       exGmv := Math_max (map gmv data) |} in
  let nonZeroViews := nonZero views data in
  let nonZeroClicks := nonZero clicks data in
  let nonZeroCost := nonZero cost data in
  let nonZeroGmv := nonZero gmv data in
  let minValues :=
    {| exViews := minOrZero nonZeroViews;
       exClicks := minOrZero nonZeroClicks;
       exCost := minOrZero nonZeroCost;
       exGmv := minOrZero nonZeroGmv |} in
  (data,
   {| totalViews := totalViews;
      totalClicks := totalClicks;
      totalCost := totalCost;
      totalGmv := totalGmv;
      totalConversions := totalConversions;
      averageClickRate := averageClickRate;
      averageConversionRate := averageConversionRate;
      topKeywords := topKeywords;
      maxValues := maxValues;
      minValues := minValues |}).

Section Parser.

(** [Papa.parse(line, { delimiter: ',' })] as the parser looks at it:
    [Normal (Some row)] when [parsed.data[0]] is an array, [row] being its
    fields; [Normal None] when the test
    [parsed.data && parsed.data[0] && Array.isArray(parsed.data[0])] fails;
    [Throw e] should the library raise. *)
Variable Papa_parse : jsstring -> completion (option (list jsstring)).

(** The records one data line contributes: at most one. *)
Definition parseRow (line : jsstring) : completion (list AdData) :=
  if negb (truthy (trim line)) then Normal []
  else
    parsed <- Papa_parse line ;;
    match parsed with
    | Some row =>
        if (24 <=? length row)%nat then Normal [toAdData row] else Normal []
    | None => Normal []
    end.

(** The row loop: [data] as it stands when the loop is left. *)
Fixpoint parseRows (dataLines : list jsstring) : completion (list AdData) :=
  match dataLines with
  | [] => Normal []
  | line :: rest =>
      here <- parseRow line ;;
      later <- parseRows rest ;;
      Normal (here ++ later)
  end.

(** The body of the [try] block. *)
Definition parseCSVData_body (csvText : jsstring) : completion ParsedAdData :=
  let lines := nonBlankLines csvText in
  let header := parseHeader lines in
  let dataStartIndex := findDataStartIndex lines in
  if dataStartIndex =? -1 then
    Throw (Error "Could not find data section in CSV")
  else
    let dataLines := slice dataStartIndex lines in
    data <- parseRows dataLines ;;
    let '(data, statistics) := calculateStatistics data in
    Normal {| header := header; data := data; statistics := statistics |}.

Definition parseCSVData (csvText : jsstring) : option ParsedAdData :=
  tryOrNull (parseCSVData_body csvText).

End Parser.

(** A field splitter without quoting, to run the parser on files whose
    fields hold neither quotes nor carriage returns, where [Papa.parse]
    splits at the commas. *)
Definition plainSplit (line : jsstring) : completion (option (list jsstring)) :=
  Normal (Some (split comma line)).

(* ================================================================== *)
(** ** The parser on an engine with a bound on call arguments *)
(* ================================================================== *)

(** [Math.max(...xs)] passes every element of [xs] as an argument of one
    call.  An engine can pass only so many (the bound depends on the engine
    and on its stack; it is of the order of 10^5) and raises a RangeError
    beyond.  The definitions above leave the bound out; the ones below are
    the same statistics block and the same [try] block with every spread
    call under the bound [maxArguments]. *)
Module Engine.
Section Limits.

Variable maxArguments : nat.
Variable Papa_parse : jsstring -> completion (option (list jsstring)).

Definition rangeError : exn := Error "Maximum call stack size exceeded".

(** [f(...xs)] *)
Definition spread {A : Type} (f : list Z -> A) (xs : list Z) : completion A :=
  if (maxArguments <? length xs)%nat then Throw rangeError
  else Normal (f xs).

(** [xs.length > 0 ? Math.min(...xs) : 0] *)
Definition minOrZero (xs : list Z) : completion number :=
  if (0 <? length xs)%nat then spread Math_min xs else Normal (ofInt 0).

Definition calculateStatistics (data : list AdData)
  : completion (list AdData * Statistics) :=
  let totalViews := sumOf views data in
  let totalClicks := sumOf clicks data in
  let totalCost := sumOf cost data in
  let totalGmv := sumOf gmv data in
  let totalConversions := sumOf conversions data in
  let averageClickRate := rate totalClicks totalViews in
  let averageConversionRate := rate totalConversions totalClicks in
  let data := sort byViewsDesc data in
  let topKeywords := map toTopKeyword (firstn 10 data) in
  maxViews <- spread Math_max (map views data) ;;
  maxClicks <- spread Math_max (map clicks data) ;;
  maxCost <- spread Math_max (map cost data) ;;
  maxGmv <- spread Math_max (map gmv data) ;;
  let maxValues :=
    {| exViews := maxViews;
       exClicks := maxClicks;
       exCost := maxCost;
       exGmv := maxGmv |} in
  let nonZeroViews := nonZero views data in
  let nonZeroClicks := nonZero clicks data in
  let nonZeroCost := nonZero cost data in
  let nonZeroGmv := nonZero gmv data in
  minViews <- minOrZero nonZeroViews ;;
  minClicks <- minOrZero nonZeroClicks ;;
  minCost <- minOrZero nonZeroCost ;;
  minGmv <- minOrZero nonZeroGmv ;;
  let minValues :=
    {| exViews := minViews;
       exClicks := minClicks;
       exCost := minCost;
       exGmv := minGmv |} in
  Normal
    (data,
     {| totalViews := totalViews;
        totalClicks := totalClicks;
        totalCost := totalCost;
        totalGmv := totalGmv;
        totalConversions := totalConversions;
        averageClickRate := averageClickRate;
        averageConversionRate := averageConversionRate;
        topKeywords := topKeywords;
        maxValues := maxValues;
        minValues := minValues |}).

(** The body of the [try] block. *)
Definition parseCSVData_body (csvText : jsstring) : completion ParsedAdData :=
  let lines := nonBlankLines csvText in
  let header := parseHeader lines in
  let dataStartIndex := findDataStartIndex lines in
  if dataStartIndex =? -1 then
    Throw (Error "Could not find data section in CSV")
  else
    let dataLines := slice dataStartIndex lines in
    data <- parseRows Papa_parse dataLines ;;
    result <- calculateStatistics data ;;
    let '(data, statistics) := result in
    Normal {| header := header; data := data; statistics := statistics |}.

Definition parseCSVData (csvText : jsstring) : option ParsedAdData :=
  tryOrNull (parseCSVData_body csvText).

End Limits.
End Engine.

(* ================================================================== *)
(** ** Vocabulary of the specification *)
(* ================================================================== *)

(** The sum of a list of numbers. *)
Definition total (xs : list Z) : Z := fold_right Z.add 0 xs.

(** Non-increasing views, on records and on top-keyword entries. *)
Definition viewsDesc (a b : AdData) : Prop := views b <= views a.


(** A line blank after trimming: nothing but white space. *)
Definition blank (line : jsstring) : bool := forallb isWhiteSpace line.

(** The filtered line list of the specification (step 1 of the parser
    algorithm). *)
Definition specLines (csvText : jsstring) : list jsstring :=
  filter (fun line => negb (blank line)) (split newline csvText).

(** The second comma-delimited field of line [i]; the empty string when
    the line does not exist or has fewer than two fields. *)
Definition specSecondField (lines : list jsstring) (i : nat) : jsstring :=
  match nth_error lines i with
  | None => []
  | Some line =>
      match split comma line with
      | _ :: second :: _ => second
      | _ => []
      end
  end.

(** The header of the specification (step 2 of the parser algorithm). *)
Definition specHeader (lines : list jsstring) : AdReportHeader :=
  {| reportTitle := match lines with title :: _ => title | [] => [] end;
     username := specSecondField lines 1;
     storeName := specSecondField lines 2;
     sellerId := specSecondField lines 3;
     adName := specSecondField lines 4;
     productId := specSecondField lines 5;
     reportCreationTime := specSecondField lines 7;
     timeRange := specSecondField lines 8 |}.

(** Equality of two numbers as values ([===]): rationals compare by value,
    NaN equals nothing. *)
Definition sameNumber (x y : number) : Prop :=
  match x, y with
  | Num p, Num q => Qeq p q
  | PosInfinity, PosInfinity => True
  | NegInfinity, NegInfinity => True
  | _, _ => False
  end.

(** 2^53: every integer up to it in absolute value is a double. *)
Definition two53 : Z := 9007199254740992.

(** The values of [f] over the records add up, in absolute value, to 2^53
    at most: no sum of some of them, in whatever order, rounds. *)
Definition safeSum (f : AdData -> Z) (records : list AdData) : Prop :=
  total (map (fun item => Z.abs (f item)) records) <= two53.

(** [num / den * 100] as a rational, without rounding. *)
Definition exactPercent (num den : Z) : Q :=
  (inject_Z num / inject_Z den * inject_Z 100)%Q.

(** [x] is finite and within a relative error of 2^-51 of [q >= 0]. *)
Definition closeTo (x : number) (q : Q) : Prop :=
  match x with
  | Num r => (Qabs (r - q) * (2251799813685248 # 1) <= q)%Q
  | _ => False
  end.

(** The four metrics. *)
Definition metrics : list metric := [Views; Clicks; Cost; Gmv].

(** The value [parseCSVData] returns once the row loop has left [records]
    in [data]. *)
Definition assemble (lines : list jsstring) (records : list AdData)
  : ParsedAdData :=
  {| header := parseHeader lines;
     data := fst (calculateStatistics records);
     statistics := snd (calculateStatistics records) |}.

(** A data line that yields a record: not blank, and split into at least
    24 fields. *)
Definition validRow (Papa_parse : jsstring -> completion (option (list jsstring)))
  (line : jsstring) (row : list jsstring) : Prop :=
  truthy (trim line) = true /\
  Papa_parse line = Normal (Some row) /\
  (24 <= List.length row)%nat.

(* ================================================================== *)
(** ** Sample reports *)
(* ================================================================== *)

Module Sample.

(** Lines joined by newlines into one text. *)
Definition unlines (lines : list jsstring) : jsstring :=
  concat (map (fun l => l ++ [newline]) lines).

Definition headerLines : list jsstring :=
  [ lit "Keyword report";
    lit "User,alice";
    lit "Store,Alice Shop";
    lit "Seller,42";
    lit "Ad,Spring sale";
    lit "Product,777";
    lit "Notes";
    lit "Created,2024-01-02";
    lit "Range,2024-01-01 - 2024-01-31" ].

Definition columns : jsstring :=
  marker ++ lit ",c3,c4,c5,c6,c7,c8,c9,c10,c11,c12,c13,c14,c15,c16,c17,c18,c19,c20,c21,c22,c23".

Definition shoes : jsstring :=
  lit "1,shoes,Exact,buy shoes,auto,10,1,10%,1,0,100%,0%,50,0,1,0,500,0,50,2,10,0,10%,0%".

Definition boots : jsstring :=
  lit "2,boots,Broad,buy boots,auto,100,10,10%,2,1,20%,10%,35,70,3,1,900,200,70,3,12,4,8%,25%".

(** A row of ten fields. *)
Definition hat : jsstring := lit "3,hat,Exact,buy hat,auto,7,1,14%,0,0".

(** A row whose views field reads -2. *)
Definition refund : jsstring :=
  lit "4,refund,Exact,refund,auto,-2,1,0%,0,0,0%,0%,0,0,0,0,0,0,0,1,0,0,0%,0%".

(** The records of the rows above. *)
Definition shoesRecord : AdData := toAdData (split comma shoes).
Definition bootsRecord : AdData := toAdData (split comma boots).
Definition refundRecord : AdData := toAdData (split comma refund).

(** A row from its keyword and its views and clicks fields. *)
Definition rowOf (name views clicks : jsstring) : jsstring :=
  lit "9," ++ name ++ lit ",Exact,q,auto," ++ views ++ [comma] ++ clicks
  ++ lit ",0%,0,0,0%,0%,0,0,0,0,0,0,0,1,0,0,0%,0%".

(** [k] times the digit 9. *)
Definition nines (k : nat) : jsstring := repeat 57%N k.

(** A row whose views and clicks have 310 digits. *)
Definition flood : jsstring := rowOf (lit "flood") (nines 310) (nines 310).

(** A row with one view and a clicks field of 310 digits. *)
Definition surge : jsstring := rowOf (lit "surge") (lit "1") (nines 310).

(** A row with 2^53 views, and a row with one view. *)
Definition heavy : jsstring :=
  rowOf (lit "heavy") (lit "9007199254740992") (lit "1").

Definition single : jsstring := rowOf (lit "single") (lit "1") (lit "1").

Definition report (rows : list jsstring) : jsstring :=
  unlines (headerLines ++ [[]; columns] ++ rows).

(** A report cut down to its title, the column-header line and one row. *)
Definition bare : jsstring :=
  unlines [lit "Keyword report"; columns; shoes].

End Sample.

(* ================================================================== *)
(** ** Further JavaScript primitives, used by the components *)
(* ================================================================== *)

Module JSLib.

(** [a === b] on strings. *)
Definition strEq (a b : jsstring) : bool :=
  if list_eq_dec N.eq_dec a b then true else false.

(** [s.endsWith(suffix)] *)
Definition endsWith (suffix s : jsstring) : bool :=
  startsWith (rev suffix) (rev s).

(** [s.replace(c, '')] for a pattern of one code unit: the first
    occurrence goes. *)
Fixpoint removeFirst (c : N) (s : jsstring) : jsstring :=
  match s with
  | [] => []
  | d :: r => if (d =? c)%N then r else d :: removeFirst c r
  end.

(** [parts.join(sep)] on an array of strings. *)
Fixpoint join (sep : jsstring) (parts : list jsstring) : jsstring :=
  match parts with
  | [] => []
  | [p] => p
  | p :: rest => p ++ sep ++ join sep rest
  end.

(** The clamping of an index argument of [Array.prototype.slice]: a
    negative index counts from the end. *)
Definition relativeIndex (i len : Z) : Z :=
  if i <? 0 then Z.max (len + i) 0 else Z.min i len.

(** [xs.slice(start, stop)] *)
Definition Array_slice {A : Type} (start stop : Z) (xs : list A) : list A :=
  let len := Z.of_nat (List.length xs) in
  let k := relativeIndex start len in
  let final := relativeIndex stop len in
  firstn (Z.to_nat (final - k)) (skipn (Z.to_nat k) xs).

(** [Math.ceil(x)] *)
Definition Math_ceil (x : number) : number :=
  match x with
  | Num q => ofInt (Qceiling q)
  | _ => x
  end.

(** [x > k] between a number and an integer: false on NaN. *)
Definition gtInt (x : number) (k : Z) : bool :=
  match x with
  | Num q => if Qlt_le_dec (inject_Z k) q then true else false
  | PosInfinity => true
  | NegInfinity => false
  | NaN => false
  end.

(** Decimal digits, most significant first, as code units. *)
Fixpoint digitCodes (d : Decimal.uint) : jsstring :=
  match d with
  | Decimal.Nil => []
  | Decimal.D0 r => 48%N :: digitCodes r
  | Decimal.D1 r => 49%N :: digitCodes r
  | Decimal.D2 r => 50%N :: digitCodes r
  | Decimal.D3 r => 51%N :: digitCodes r
  | Decimal.D4 r => 52%N :: digitCodes r
  | Decimal.D5 r => 53%N :: digitCodes r
  | Decimal.D6 r => 54%N :: digitCodes r
  | Decimal.D7 r => 55%N :: digitCodes r
  | Decimal.D8 r => 56%N :: digitCodes r
  | Decimal.D9 r => 57%N :: digitCodes r
  end.

(** Digit values of a decimal numeral, most significant first. *)
Fixpoint digitValues (d : Decimal.uint) : list Z :=
  match d with
  | Decimal.Nil => []
  | Decimal.D0 r => 0 :: digitValues r
  | Decimal.D1 r => 1 :: digitValues r
  | Decimal.D2 r => 2 :: digitValues r
  | Decimal.D3 r => 3 :: digitValues r
  | Decimal.D4 r => 4 :: digitValues r
  | Decimal.D5 r => 5 :: digitValues r
  | Decimal.D6 r => 6 :: digitValues r
  | Decimal.D7 r => 7 :: digitValues r
  | Decimal.D8 r => 8 :: digitValues r
  | Decimal.D9 r => 9 :: digitValues r
  end.

(** [String(n)] for an integer [n] up to 2^53 in absolute value: the
    decimal digits, after a minus sign when negative.  (A field of more
    digits holds the nearest double, whose digits [String] writes, in
    exponent notation from 10^21 on; what is proved of the text below is
    proved for integers up to 2^53.) *)
Definition numberToString (n : Z) : jsstring :=
  match Z.to_int n with
  | Decimal.Pos d => digitCodes d
  | Decimal.Neg d => 45%N :: digitCodes d
  end.

End JSLib.

Import JSLib.

(* ================================================================== *)
(** ** DataTable: pagination *)
(* ================================================================== *)

Module Table.

(** [Math.ceil(filteredAndSortedData.length / itemsPerPage)] *)
Definition totalPages (count itemsPerPage : Z) : number :=
  Math_ceil (div count itemsPerPage).

(** [(currentPage - 1) * itemsPerPage] *)
Definition startIndex (currentPage itemsPerPage : Z) : Z :=
  (currentPage - 1) * itemsPerPage.

(** [filteredAndSortedData.slice(startIndex, startIndex + itemsPerPage)] *)
Definition paginatedData {A : Type} (rows : list A)
  (currentPage itemsPerPage : Z) : list A :=
  let startIndex := startIndex currentPage itemsPerPage in
  Array_slice startIndex (startIndex + itemsPerPage) rows.

(** The two numbers of "Showing .. to .. of .. entries". *)
Definition showingFrom (currentPage itemsPerPage : Z) : Z :=
  startIndex currentPage itemsPerPage + 1.

Definition showingTo (count currentPage itemsPerPage : Z) : Z :=
  Z.min (startIndex currentPage itemsPerPage + itemsPerPage) count.

(** The page buttons:
    [Array.from({ length: Math.min(5, totalPages) }, (_, i) =>
       Math.max(1, Math.min(totalPages - 4, currentPage - 2)) + i)],
    for an integral [totalPages]. *)
Definition pageNumbers (totalPages currentPage : Z) : list Z :=
  map (fun i => Z.max 1 (Z.min (totalPages - 4) (currentPage - 2))
                + Z.of_nat i)
      (seq 0 (Z.to_nat (Z.min 5 totalPages))).

(** The Previous and Next buttons. *)
Definition previousPage (current : Z) : Z := Z.max 1 (current - 1).

Definition nextPage (totalPages current : Z) : Z :=
  Z.min totalPages (current + 1).

(** [new Set(xs)] followed by [Array.from]: the distinct elements, each
    at the place of its first occurrence. *)
Definition distinct (xs : list jsstring) : list jsstring :=
  fold_left (fun seen x => if existsb (strEq x) seen then seen
                           else seen ++ [x]) xs [].

(** [data.data.map((item) => item.keywordType).filter(Boolean)], made a
    set and back an array. *)
Definition keywordTypes (data : list AdData) : list jsstring :=
  distinct (filter truthy (map keywordType data)).

Inductive SortDirection : Type := asc | desc.

(** [keyof AdData] *)
Inductive SortField : Type :=
| K_order | K_keyword | K_keywordType | K_searchCommand | K_biddingMethod
| K_views | K_clicks | K_clickRate | K_conversions | K_directConversions
| K_conversionRate | K_directConversionRate | K_costPerConversion
| K_directCostPerConversion | K_productsSold | K_directProductsSold
| K_gmv | K_directGmv | K_cost | K_averageRank
| K_roas | K_directRoas | K_acos | K_directAcos.

(** A field value: a number or a string. *)
Inductive value : Type :=
| VNumber (n : Z)
| VString (s : jsstring).

(** [item[sortField]] *)
Definition get (sortField : SortField) (item : AdData) : value :=
  match sortField with
  | K_order => VNumber (order item)
  | K_keyword => VString (keyword item)
  | K_keywordType => VString (keywordType item)
  | K_searchCommand => VString (searchCommand item)
  | K_biddingMethod => VString (biddingMethod item)
  | K_views => VNumber (views item)
  | K_clicks => VNumber (clicks item)
  | K_clickRate => VString (clickRate item)
  | K_conversions => VNumber (conversions item)
  | K_directConversions => VNumber (directConversions item)
  | K_conversionRate => VString (conversionRate item)
  | K_directConversionRate => VString (directConversionRate item)
  | K_costPerConversion => VString (costPerConversion item)
  | K_directCostPerConversion => VString (directCostPerConversion item)
  | K_productsSold => VNumber (productsSold item)
  | K_directProductsSold => VNumber (directProductsSold item)
  | K_gmv => VNumber (gmv item)
  | K_directGmv => VNumber (directGmv item)
  | K_cost => VNumber (cost item)
  | K_averageRank => VNumber (averageRank item)
  | K_roas => VString (roas item)
  | K_directRoas => VString (directRoas item)
  | K_acos => VString (acos item)
  | K_directAcos => VString (directAcos item)
  end.

(** [String(v)] *)
Definition toStr (v : value) : jsstring :=
  match v with
  | VNumber n => numberToString n
  | VString s => s
  end.

(** The fields the comparator reads as percentages. *)
Definition isRatioField (sortField : SortField) : bool :=
  match sortField with
  | K_clickRate | K_conversionRate | K_directConversionRate
  | K_roas | K_directRoas | K_acos | K_directAcos => true
  | _ => false
  end.

(** [x || 0] on a number: NaN and 0 give 0. *)
Definition orZero (x : number) : number :=
  match x with
  | NaN => ofInt 0
  | _ => x
  end.

(** [x - y] *)
Definition minus (x y : number) : number :=
  match x, y with
  | Num p, Num q => Num (p - q)
  | NaN, _ | _, NaN => NaN
  | PosInfinity, PosInfinity | NegInfinity, NegInfinity => NaN
  | PosInfinity, _ | _, NegInfinity => PosInfinity
  | NegInfinity, _ | _, PosInfinity => NegInfinity
  end.

(** How [Array.prototype.sort] reads a comparator result: its sign, NaN
    counting as 0. *)
Definition signOf (x : number) : Z :=
  match x with
  | Num q => Z.sgn (Qnum q)
  | PosInfinity => 1
  | NegInfinity => -1
  | NaN => 0
  end.



Section Rows.

(** Three library functions the component calls and the model leaves
    open: [String.prototype.toLowerCase], [parseFloat] and
    [String.prototype.localeCompare]. *)
Variable toLowerCase : jsstring -> jsstring.
Variable parseFloat : jsstring -> number.
Variable localeCompare : jsstring -> jsstring -> Z.

(** The predicate of [data.data.filter(..)]. *)
Definition matches (searchTerm keywordTypeFilter : jsstring) (item : AdData)
  : bool :=
  let matchesSearch :=
    includes (toLowerCase searchTerm) (toLowerCase (keyword item))
    || includes (toLowerCase searchTerm) (toLowerCase (searchCommand item)) in
  let matchesType :=
    strEq keywordTypeFilter (lit "all")
    || strEq (keywordType item) keywordTypeFilter in
  matchesSearch && matchesType.

(** The comparator of [filtered.sort(..)]. *)
Definition compareRows (sortField : SortField) (sortDirection : SortDirection)
  (a b : AdData) : number :=
  let aValue := get sortField a in
  let bValue := get sortField b in
  match aValue, bValue with
  | VNumber x, VNumber y =>
      match sortDirection with
      | asc => ofInt (x - y)
      | desc => ofInt (y - x)
      end
  | _, _ =>
      if isRatioField sortField then
        let aNum := orZero (parseFloat (removeFirst 37 (toStr aValue))) in
        let bNum := orZero (parseFloat (removeFirst 37 (toStr bValue))) in
        match sortDirection with
        | asc => minus aNum bNum
        | desc => minus bNum aNum
        end
      else
        let aStr := toLowerCase (toStr aValue) in
        let bStr := toLowerCase (toStr bValue) in
        match sortDirection with
        | asc => ofInt (localeCompare aStr bStr)
        | desc => ofInt (localeCompare bStr aStr)
        end
  end.

(** [filteredAndSortedData]: [filter] makes a new array, which [sort]
    then orders in place. *)
Definition filteredAndSortedData (data : list AdData)
  (searchTerm keywordTypeFilter : jsstring)
  (sortField : SortField) (sortDirection : SortDirection) : list AdData :=
  let filtered := filter (matches searchTerm keywordTypeFilter) data in
  sort (fun a b => signOf (compareRows sortField sortDirection a b)) filtered.

End Rows.

(** One row of the export: eleven values joined by commas, the keyword,
    the type and the search command between double quotes. *)
Definition exportRow (row : AdData) : jsstring :=
  let quoted s := [34%N] ++ s ++ [34%N] in
  join [comma]
    [ numberToString (order row);
      quoted (keyword row);
      quoted (keywordType row);
      quoted (searchCommand row);
      numberToString (views row);
      numberToString (clicks row);
      clickRate row;
      numberToString (conversions row);
      numberToString (cost row);
      numberToString (gmv row);
      numberToString (averageRank row) ].

Definition exportHeaders : list jsstring :=
  [ lit "Order"; lit "Keyword"; lit "Type"; lit "Search Command";
    lit "Views"; lit "Clicks"; lit "Click Rate"; lit "Conversions";
    lit "Cost"; lit "GMV"; lit "Avg Rank" ].

(** [csvContent] of [exportToCSV], for the rows on display. *)
Definition csvContent (rows : list AdData) : jsstring :=
  join [newline] (join [comma] exportHeaders :: map exportRow rows).

End Table.

(* ================================================================== *)
(** ** DataCharts: the chart series *)
(* ================================================================== *)

Module Charts.

(** [s.length > limit ? s.substring(0, limit) + '...' : s] *)
Definition shorten (limit : nat) (s : jsstring) : jsstring :=
  if (limit <? List.length s)%nat then firstn limit s ++ lit "..." else s.



(** A point of the cost-against-performance chart. *)
Record CostPoint : Type := mkCostPoint {
  cpKeyword : jsstring;
  cpCost : Z;
  cpViews : Z;
  cpClicks : Z;
  cpEfficiency : number
}.

(** [costPerformanceData] *)
Definition costPerformanceData (r : ParsedAdData) : list CostPoint :=
  map (fun item =>
         {| cpKeyword := shorten 15 (keyword item);
            cpCost := cost item;
            cpViews := views item;
            cpClicks := clicks item;
            cpEfficiency :=
              if views item >? 0
              then multiply (divide (toDouble (clicks item))
                                    (toDouble (views item)))
                            (ofInt 100)
              else ofInt 0 |})
      (Array_slice 0 20
         (filter (fun item => (views item >? 0) && (cost item >? 0))
                 (data r))).











Section Pie.

(** Whether a name is found on [Object.prototype] (with a truthy value, as
    [constructor], [toString], [valueOf], [hasOwnProperty] and the other
    standard ones are): the accumulator is a plain object and inherits
    them. *)
Variable inherited : jsstring -> bool.




End Pie.

Section PieInvariant.

Variable inherited : jsstring -> bool.


End PieInvariant.

End Charts.

(* ================================================================== *)
(** ** FileUpload: what a dropped or chosen file leads to *)
(* ================================================================== *)

Module Upload.

(** The three properties of a [File] the component reads. *)
Record File : Type := mkFile {
  name : jsstring;
  type : jsstring;
  size : Z
}.

(** What a handler does: hands a file to [onFileSelect], sets an error
    message, or neither. *)
Inductive outcome : Type :=
| Selected (file : File)
| Rejected (message : string)
| Ignored.

(** [10 * 1024 * 1024] *)
Definition sizeLimit : Z := 10 * 1024 * 1024.

(** [handleDrop] on [e.dataTransfer.files]. *)
Definition handleDrop (files : list File) : outcome :=
  match find (fun file => strEq (type file) (lit "text/csv")
                          || endsWith (lit ".csv") (name file)) files with
  | None => Rejected "Please select a CSV file"
  | Some csvFile =>
      if size csvFile >? sizeLimit
      then Rejected "File size must be less than 10MB"
      else Selected csvFile
  end.

(** [handleFileSelect] on [e.target.files]. *)
Definition handleFileSelect (files : list File) : outcome :=
  match files with
  | [] => Ignored
  | file :: _ =>
      if negb (includes (lit "csv") (type file))
         && negb (endsWith (lit ".csv") (name file))
      then Rejected "Please select a CSV file"
      else if size file >? sizeLimit
      then Rejected "File size must be less than 10MB"
      else Selected file
  end.

End Upload.

(* ================================================================== *)
(** ** Home: the state behind the page *)
(* ================================================================== *)

Module Home.

(** The five [useState] cells of [Home]. *)
Record State : Type := mkState {
  selectedFile : option Upload.File;
  parsedData : option ParsedAdData;
  isLoading : bool;
  error : option string;
  activeTab : string
}.

Definition initial : State :=
  {| selectedFile := None;
     parsedData := None;
     isLoading := false;
     error := None;
     activeTab := "overview" |}.

(** How [await file.text()] ends: with the text, or by throwing either an
    [Error] with its message or a value that is no [Error]. *)
Inductive readResult : Type :=
| Text (csvText : jsstring)
| ReadError (message : string)
| ReadOther.

(** [handleFileSelect] up to the [await]. *)
Definition startFileSelect (st : State) (file : Upload.File) : State :=
  {| selectedFile := Some file;
     parsedData := parsedData st;
     isLoading := true;
     error := None;
     activeTab := activeTab st |}.

Section Flow.

Variable Papa_parse : jsstring -> completion (option (list jsstring)).

(** [handleFileSelect] from the [await] on: the [try] block, its [catch]
    and its [finally]. *)
Definition finishFileSelect (st : State) (read : readResult) : State :=
  let failed (message : string) :=
    {| selectedFile := selectedFile st;
       parsedData := None;
       isLoading := false;
       error := Some message;
       activeTab := activeTab st |} in
  match read with
  | Text text =>
      match parseCSVData Papa_parse text with
      | Some parsed =>
          {| selectedFile := selectedFile st;
             parsedData := Some parsed;
             isLoading := false;
             error := error st;
             activeTab := "overview" |}
      | None =>
          failed "Failed to parse CSV file. Please check the file format."%string
      end
  | ReadError message => failed message
  | ReadOther => failed "Failed to process file"%string
  end.

(** [handleFileSelect], the file read in one go. *)
Definition handleFileSelect (st : State) (file : Upload.File)
  (read : readResult) : State :=
  finishFileSelect (startFileSelect st file) read.

End Flow.

(** [handleFileRemove] *)
Definition handleFileRemove (st : State) : State :=
  {| selectedFile := None;
     parsedData := None;
     isLoading := false;
     error := None;
     activeTab := "overview" |}.

(** The dashboard is rendered under [parsedData && !isLoading]. *)
Definition dashboardShown (st : State) : bool :=
  match parsedData st with
  | Some _ => negb (isLoading st)
  | None => false
  end.

End Home.

(* ================================================================== *)
(** ** Sample data for the components *)
(* ================================================================== *)

Module Sample2.

Definition records : list AdData :=
  [Sample.shoesRecord; Sample.bootsRecord; Sample.refundRecord].

Definition sevenRows : list Z := [1; 2; 3; 4; 5; 6; 7].

Definition notes : Upload.File :=
  {| Upload.name := lit "notes.txt";
     Upload.type := lit "text/plain";
     Upload.size := 120 |}.

Definition bigReport : Upload.File :=
  {| Upload.name := lit "big.csv";
     Upload.type := lit "text/csv";
     Upload.size := 11534336 |}.

(** A file of exactly 10 * 1024 * 1024 bytes. *)
Definition fullReport : Upload.File :=
  {| Upload.name := lit "report.csv";
     Upload.type := lit "text/csv";
     Upload.size := 10485760 |}.

End Sample2.
(* ================================================================== *)
(** ** Lemmas on binary64 arithmetic *)
(* ================================================================== *)

Lemma Qred_int (z : Z) : Qred (z # 1) = z # 1.
Proof.
  unfold Qred.
  pose proof (Z.ggcd_gcd z 1) as Hg.
  pose proof (Z.ggcd_correct_divisors z 1) as Hd.
  destruct (Z.ggcd z 1) as (g, (aa, bb)). simpl in *.
  rewrite Z.gcd_1_r in Hg. subst g. destruct Hd as [Ha Hb].
  rewrite Z.mul_1_l in Ha, Hb. subst aa bb. reflexivity.
Qed.

Lemma Qred_scaled (z k : Z) : 0 < k -> Qred (z * k # Z.to_pos k) = z # 1.
Proof.
  intros Hk. rewrite <- (Qred_int z). apply Qred_complete.
  unfold Qeq. simpl. rewrite Z2Pos.id by exact Hk. lia.
Qed.

Lemma floorLog2_int (z : Z) : 0 < z -> floorLog2 z 1 = Z.log2 z.
Proof.
  intros Hpos. unfold floorLog2. change (Z.log2 1) with 0.
  rewrite Z.sub_0_r. cbv zeta.
  destruct (Z.leb_spec 0 (Z.log2 z)) as [_|Hneg];
    [|pose proof (Z.log2_nonneg z); lia].
  rewrite Z.mul_1_l.
  destruct (Z.leb_spec (2 ^ Z.log2 z) z) as [_|Hbad];
    [reflexivity | pose proof (Z.log2_spec z Hpos); lia].
Qed.

Lemma roundAt_int (e z : Z) : e <= 0 -> roundAt e z 1 = z # 1.
Proof.
  intros He. unfold roundAt. cbv zeta.
  rewrite (Z.max_r e 0), (Z.max_l (- e) 0) by lia.
  change (2 ^ 0) with 1. rewrite !Z.mul_1_l, !Z.mul_1_r.
  rewrite Z.div_1_r, Z.mod_1_r. cbn [Z.mul Z.ltb Z.eqb Z.compare orb andb].
  apply Qred_scaled. apply Z.pow_pos_nonneg; lia.
Qed.

Lemma roundPositive_int (z : Z) :
  0 < z <= two53 -> roundPositive z 1 = z # 1.
Proof.
  intros [Hpos Hle].
  destruct (Z.eq_dec z two53) as [->|Hne]; [vm_compute; reflexivity|].
  assert (Hlog : Z.log2 z < 53).
  { apply Z.log2_lt_pow2; [exact Hpos|]. unfold two53 in *.
    change (2 ^ 53) with 9007199254740992. lia. }
  unfold roundPositive. rewrite floorLog2_int by exact Hpos.
  apply roundAt_int. lia.
Qed.

(** An integer up to 2^53 in absolute value is a double. *)
Lemma roundToDouble_int (z : Z) :
  Z.abs z <= two53 -> toDouble z = ofInt z.
Proof.
  intros Hz. unfold toDouble, roundToDouble, ofInt, inject_Z. cbn [Qnum Qden].
  destruct (Z.eqb_spec z 0) as [->|Hnz]; [reflexivity|].
  destruct (Z.leb_spec (overflowBound * 1) (Z.abs z)) as [Hbig|_].
  { exfalso. revert Hbig. unfold two53 in Hz.
    assert (two53 < overflowBound) by (vm_compute; reflexivity).
    unfold two53 in *. lia. }
  destruct (Z.ltb_spec 0 z) as [Hpos|Hneg].
  - rewrite roundPositive_int by lia. reflexivity.
  - rewrite roundPositive_int by lia. unfold Qopp. cbn [Qnum Qden].
    rewrite Z.opp_involutive. reflexivity.
Qed.

(** A sum of two integers that stays within 2^53 does not round. *)
Lemma add_exact (a b : Z) :
  Z.abs (a + b) <= two53 -> add (ofInt a) (ofInt b) = ofInt (a + b).
Proof.
  intros H. unfold add, ofInt, inject_Z, Qplus. cbn [Qnum Qden].
  rewrite !Z.mul_1_r. change (1 * 1)%positive with 1%positive.
  apply (roundToDouble_int (a + b)), H.
Qed.

Lemma pow2_gap (n d ln ld : Z) :
  0 <= ln -> 0 <= ld -> 2 ^ ln <= n -> d < 2 ^ (ld + 1) ->
  (0 <= ln - ld - 1 -> d * 2 ^ (ln - ld - 1) <= n) /\
  (ln - ld - 1 < 0 -> d <= n * 2 ^ (- (ln - ld - 1))).
Proof.
  intros Hln Hld Hn Hd. split; intros HK.
  - assert (E : 2 ^ ln = 2 ^ (ld + 1) * 2 ^ (ln - ld - 1))
      by (rewrite <- Z.pow_add_r by lia; f_equal; lia).
    assert (0 < 2 ^ (ln - ld - 1)) by (apply Z.pow_pos_nonneg; lia).
    nia.
  - assert (E : 2 ^ ln * 2 ^ (- (ln - ld - 1)) = 2 ^ (ld + 1))
      by (rewrite <- Z.pow_add_r by lia; f_equal; lia).
    assert (0 < 2 ^ (- (ln - ld - 1))) by (apply Z.pow_pos_nonneg; lia).
    nia.
Qed.

(** [floorLog2 n d] is an exponent whose power of two is at most n/d. *)
Lemma floorLog2_lower (n d : Z) :
  0 < n -> 0 < d ->
  (0 <= floorLog2 n d -> d * 2 ^ floorLog2 n d <= n) /\
  (floorLog2 n d < 0 -> d <= n * 2 ^ (- floorLog2 n d)) /\
  Z.log2 n - Z.log2 d - 1 <= floorLog2 n d.
Proof.
  intros Hn Hd. unfold floorLog2. cbv zeta.
  pose proof (Z.log2_spec n Hn) as [Hn1 Hn2].
  pose proof (Z.log2_spec d Hd) as [Hd1 Hd2].
  pose proof (Z.log2_nonneg n) as Hln.
  pose proof (Z.log2_nonneg d) as Hld.
  replace (Z.succ (Z.log2 d)) with (Z.log2 d + 1) in Hd2 by lia.
  pose proof (pow2_gap n d _ _ Hln Hld Hn1 Hd2) as [Hgap1 Hgap2].
  set (ln := Z.log2 n) in *. set (ld := Z.log2 d) in *.
  destruct (Z.leb_spec 0 (ln - ld)) as [Hk|Hk].
  - destruct (Z.leb_spec (d * 2 ^ (ln - ld)) n) as [Ht|Ht].
    + split; [intros _; exact Ht|]. split; lia.
    + split; [exact Hgap1|]. split; [exact Hgap2 | lia].
  - destruct (Z.leb_spec d (n * 2 ^ (- (ln - ld)))) as [Ht|Ht].
    + split; [lia|]. split; [intros _; exact Ht | lia].
    + split; [exact Hgap1|]. split; [exact Hgap2 | lia].
Qed.

Lemma scaled_lower (e n d L : Z) :
  0 < n -> 0 < d -> e = L - 52 ->
  (0 <= L -> d * 2 ^ L <= n) ->
  (L < 0 -> d <= n * 2 ^ (- L)) ->
  2 ^ 52 * (d * 2 ^ Z.max e 0) <= n * 2 ^ Z.max (- e) 0.
Proof.
  intros Hn Hd -> Hpos Hneg.
  destruct (Z.le_gt_cases 52 L) as [Hbig|Hsmall].
  - rewrite (Z.max_l (L - 52) 0), (Z.max_r (- (L - 52)) 0) by lia.
    change (2 ^ 0) with 1. rewrite Z.mul_1_r.
    specialize (Hpos ltac:(lia)).
    replace L with (52 + (L - 52)) in Hpos at 1 by lia.
    rewrite Z.pow_add_r in Hpos by lia. lia.
  - rewrite (Z.max_r (L - 52) 0), (Z.max_l (- (L - 52)) 0) by lia.
    change (2 ^ 0) with 1. rewrite Z.mul_1_r.
    destruct (Z.le_gt_cases 0 L) as [HL|HL].
    + specialize (Hpos HL).
      assert (E : 2 ^ 52 = 2 ^ L * 2 ^ (- (L - 52)))
        by (rewrite <- Z.pow_add_r by lia; f_equal; lia).
      assert (0 < 2 ^ (- (L - 52))) by (apply Z.pow_pos_nonneg; lia).
      rewrite E. nia.
    + specialize (Hneg HL).
      assert (E : 2 ^ (- (L - 52)) = 2 ^ 52 * 2 ^ (- L))
        by (rewrite <- Z.pow_add_r by lia; f_equal; lia).
      rewrite E.
      assert (0 < 2 ^ 52) by (apply Z.pow_pos_nonneg; lia). nia.
Qed.

(** [roundAt] is off by half a unit of 2^e at most. *)
Lemma roundAt_nearest (e n d : Z) :
  0 < n -> 0 < d ->
  exists m,
    (roundAt e n d == (m * 2 ^ Z.max e 0 # Z.to_pos (2 ^ Z.max (- e) 0)))%Q /\
    2 * Z.abs (m * (d * 2 ^ Z.max e 0) - n * 2 ^ Z.max (- e) 0)
      <= d * 2 ^ Z.max e 0.
Proof.
  intros Hn Hd. unfold roundAt. cbv zeta.
  set (up := 2 ^ Z.max e 0). set (down := 2 ^ Z.max (- e) 0).
  assert (Hup : 0 < up) by (apply Z.pow_pos_nonneg; lia).
  assert (Hdown : 0 < down) by (apply Z.pow_pos_nonneg; lia).
  assert (HD : 0 < d * up) by lia.
  pose proof (Z.div_mod (n * down) (d * up) ltac:(lia)) as Hdm.
  pose proof (Z.mod_pos_bound (n * down) (d * up) HD) as Hr.
  set (m := (n * down) / (d * up)) in *.
  set (r := (n * down) mod (d * up)) in *.
  eexists. split; [apply Qred_correct|].
  destruct (Z.ltb_spec (d * up) (2 * r)) as [H1|H1]; cbn [orb].
  - lia.
  - destruct (Z.eqb_spec (d * up) (2 * r)) as [H2|H2]; cbn [andb].
    + destruct (Z.odd m); lia.
    + lia.
Qed.

Lemma roundPositive_near (n d : Z) :
  0 < n -> 0 < d -> d <= n * 2 ^ 60 ->
  (inject_Z (two53 - 1) * (n # Z.to_pos d)
     <= inject_Z two53 * roundPositive n d)%Q /\
  (inject_Z two53 * roundPositive n d
     <= inject_Z (two53 + 1) * (n # Z.to_pos d))%Q.
Proof.
  intros Hn Hd Hlo.
  destruct (floorLog2_lower n d Hn Hd) as (H1 & H2 & H3).
  assert (Hlog : Z.log2 d <= 60 + Z.log2 n).
  { rewrite <- (Z.log2_mul_pow2 n 60) by lia. apply Z.log2_le_mono, Hlo. }
  unfold roundPositive.
  rewrite (Z.max_l (floorLog2 n d - 52) (-1074)) by lia.
  set (e := floorLog2 n d - 52).
  destruct (roundAt_nearest e n d Hn Hd) as (m & Hq & Hnear).
  pose proof (scaled_lower e n d (floorLog2 n d) Hn Hd eq_refl H1 H2) as HB.
  set (up := 2 ^ Z.max e 0) in *. set (down := 2 ^ Z.max (- e) 0) in *.
  assert (Hdown : 0 < down) by (apply Z.pow_pos_nonneg; lia).
  change (2 ^ 52) with 4503599627370496 in HB.
  rewrite Hq. unfold Qle, Qmult, inject_Z, two53. cbn [Qnum Qden Pos.mul].
  rewrite !Z2Pos.id by lia. split; lia.
Qed.

(** Between 2^-60 and 2^62 rounding is finite, with a relative error of
    2^-53 at most. *)
Lemma roundToDouble_near (q : Q) :
  ((1 # 1152921504606846976) <= q)%Q ->
  (q <= 4611686018427387904 # 1)%Q ->
  exists r,
    roundToDouble q = Num r /\
    (inject_Z (two53 - 1) * q <= inject_Z two53 * r)%Q /\
    (inject_Z two53 * r <= inject_Z (two53 + 1) * q)%Q.
Proof.
  destruct q as [n dp]. unfold Qle. cbn [Qnum Qden]. intros Hlo Hhi.
  assert (Hn : 0 < n) by lia.
  unfold roundToDouble. cbn [Qnum Qden].
  destruct (Z.eqb_spec n 0) as [|_]; [lia|].
  destruct (Z.leb_spec (overflowBound * Z.pos dp) (Z.abs n)) as [Hbig|_].
  { exfalso.
    assert (4611686018427387904 < overflowBound) by (vm_compute; reflexivity).
    nia. }
  destruct (Z.ltb_spec 0 n) as [_|]; [|lia].
  eexists. split; [reflexivity|].
  apply (roundPositive_near n (Z.pos dp) Hn); [lia|].
  change (2 ^ 60) with 1152921504606846976. lia.
Qed.

Lemma percent_of_zero (v : Z) :
  0 < v -> multiply (divide (ofInt 0) (ofInt v)) (ofInt 100) = ofInt 0.
Proof.
  intros Hv. destruct v as [|p|p]; try lia. reflexivity.
Qed.

Lemma percent_near (c v : Z) :
  0 < c <= two53 -> 0 < v <= two53 ->
  exists r,
    multiply (divide (ofInt c) (ofInt v)) (ofInt 100) = Num r /\
    closeTo (Num r) (exactPercent c v).
Proof.
  intros Hc Hv. unfold two53 in *.
  unfold divide, ofInt. cbn [Qnum inject_Z].
  destruct (Z.eqb_spec v 0) as [|_]; [lia|].
  assert (Hq : ((1 # 9007199254740992) <= inject_Z c / inject_Z v)%Q /\
               (inject_Z c / inject_Z v <= 9007199254740992 # 1)%Q).
  { destruct v as [|p|p]; try lia.
    unfold Qdiv, Qmult, Qinv, Qle, inject_Z. cbn [Qnum Qden Pos.mul]. lia. }
  set (q1 := (inject_Z c / inject_Z v)%Q) in *.
  change (c # 1) with (inject_Z c). change (v # 1) with (inject_Z v).
  fold q1. destruct Hq as [Hlo Hhi].
  destruct (roundToDouble_near q1) as (r1 & -> & Hr1 & Hr1'); [lra | lra |].
  unfold two53, inject_Z in Hr1, Hr1'.
  cbn [Z.sub Z.add Z.pos_sub Pos.pred_double Pos.succ Z.opp Pos.add]
    in Hr1, Hr1'.
  unfold multiply. change (inject_Z 100) with (100 # 1).
  destruct (roundToDouble_near (r1 * (100 # 1))%Q) as (r2 & -> & Hr2 & Hr2');
    [lra | lra |].
  unfold two53, inject_Z in Hr2, Hr2'.
  cbn [Z.sub Z.add Z.pos_sub Pos.pred_double Pos.succ Z.opp Pos.add]
    in Hr2, Hr2'.
  exists r2. split; [reflexivity|].
  unfold closeTo, exactPercent. fold q1. change (inject_Z 100) with (100 # 1).
  assert (Habs : (Qabs (r2 - q1 * (100 # 1))
                  <= q1 * (100 # 1) * (1 # 2251799813685248))%Q).
  { apply Qabs_Qle_condition. split; lra. }
  lra.
Qed.

Lemma exactPercent_zero (v : Z) : (exactPercent 0 v == 0)%Q.
Proof.
  unfold exactPercent. change (inject_Z 0) with 0%Q.
  unfold Qdiv. rewrite !Qmult_0_l. reflexivity.
Qed.

(** [c / v * 100] on integral operands up to 2^53, [v] positive: the result
    is finite and close to the exact percentage. *)
Lemma percent_close (c v : Z) :
  0 <= c <= two53 -> 0 < v <= two53 ->
  exists r,
    multiply (divide (ofInt c) (ofInt v)) (ofInt 100) = Num r /\
    closeTo (Num r) (exactPercent c v).
Proof.
  intros Hc Hv. destruct (Z.eq_dec c 0) as [->|Hne].
  - exists 0%Q. split; [apply percent_of_zero; lia|].
    unfold closeTo. rewrite exactPercent_zero. vm_compute. discriminate.
  - apply percent_near; lia.
Qed.

Lemma gt_ofInt (a b : Z) : gt (ofInt a) (ofInt b) = (b <? a).
Proof.
  unfold gt, ofInt, inject_Z, Qle_bool. cbn [Qnum Qden].
  rewrite !Z.mul_1_r. symmetry. apply Z.ltb_antisym.
Qed.

(* ================================================================== *)
(** ** Lemmas on the primitives *)
(* ================================================================== *)

Section SortFacts.
Context {A : Type} (cmp : A -> A -> Z).

Lemma insert_perm (x : A) (l : list A) :
  Permutation (insert cmp x l) (x :: l).
Proof.
  induction l as [|y r IH]; simpl.
  - apply Permutation_refl.
  - destruct (cmp x y <=? 0).
    + apply Permutation_refl.
    + eapply perm_trans; [apply perm_skip, IH | apply perm_swap].
Qed.

Lemma sort_perm (l : list A) : Permutation (sort cmp l) l.
Proof.
  induction l as [|x r IH]; simpl.
  - constructor.
  - eapply perm_trans; [apply insert_perm | apply perm_skip, IH].
Qed.

Lemma sort_In (l : list A) (x : A) : In x (sort cmp l) <-> In x l.
Proof.
  split; apply Permutation_in;
    [apply sort_perm | apply Permutation_sym, sort_perm].
Qed.

Lemma sort_length (l : list A) : List.length (sort cmp l) = List.length l.
Proof. apply Permutation_length, sort_perm. Qed.

End SortFacts.

Lemma insert_viewsDesc (x : AdData) (l : list AdData) :
  StronglySorted viewsDesc l ->
  StronglySorted viewsDesc (insert byViewsDesc x l).
Proof.
  induction 1 as [|y r Hr IH Hy]; simpl.
  - repeat constructor.
  - unfold byViewsDesc at 1.
    destruct (Z.leb_spec (views y - views x) 0) as [Hle|Hgt].
    + constructor; [constructor; assumption|].
      constructor; [unfold viewsDesc; lia|].
      eapply Forall_impl; [|exact Hy].
      unfold viewsDesc; intros; lia.
    + constructor; [exact IH|].
      eapply Permutation_Forall;
        [apply Permutation_sym, insert_perm|].
      constructor; [unfold viewsDesc; lia | exact Hy].
Qed.

Lemma sort_viewsDesc (l : list AdData) :
  StronglySorted viewsDesc (sort byViewsDesc l).
Proof.
  induction l as [|x r IH]; simpl.
  - constructor.
  - apply insert_viewsDesc, IH.
Qed.

Lemma In_firstn {A : Type} (n : nat) (l : list A) (x : A) :
  In x (firstn n l) -> In x l.
Proof.
  revert l; induction n as [|n IH]; intros [|y r]; simpl; try tauto.
  intros [->|H]; [left; reflexivity | right; apply IH, H].
Qed.


Lemma total_abs_nonneg (f : AdData -> Z) (l : list AdData) :
  0 <= total (map (fun item => Z.abs (f item)) l).
Proof.
  induction l as [|x r IH]; simpl; lia.
Qed.

Lemma fold_add_exact (f : AdData -> Z) (l : list AdData) (acc : Z) :
  Z.abs acc + total (map (fun item => Z.abs (f item)) l) <= two53 ->
  fold_left (fun sum item => add sum (toDouble (f item))) l (ofInt acc)
  = ofInt (acc + total (map f l)).
Proof.
  revert acc; induction l as [|x r IH]; intros acc Hsafe.
  - simpl. rewrite Z.add_0_r. reflexivity.
  - pose proof (total_abs_nonneg f r) as Hr.
    change (total (map (fun item => Z.abs (f item)) (x :: r)))
      with (Z.abs (f x) + total (map (fun item => Z.abs (f item)) r))
      in Hsafe.
    change (total (map f (x :: r))) with (f x + total (map f r)).
    cbn [fold_left].
    rewrite roundToDouble_int by lia.
    rewrite add_exact by lia.
    rewrite IH by lia. f_equal. lia.
Qed.

(** A sum whose terms are within 2^53 altogether is exact. *)
Lemma sumOf_exact (f : AdData -> Z) (l : list AdData) :
  safeSum f l -> sumOf f l = ofInt (total (map f l)).
Proof.
  intros Hsafe. unfold sumOf. apply (fold_add_exact f l 0). exact Hsafe.
Qed.

Lemma total_perm (xs ys : list Z) :
  Permutation xs ys -> total xs = total ys.
Proof.
  induction 1; simpl; lia.
Qed.

Lemma safeSum_perm (f : AdData -> Z) (l l' : list AdData) :
  Permutation l l' -> safeSum f l -> safeSum f l'.
Proof.
  unfold safeSum. intros Hperm H.
  rewrite <- (total_perm _ _ (Permutation_map _ Hperm)). exact H.
Qed.

Lemma total_nonneg (xs : list Z) :
  Forall (fun x => 0 <= x) xs -> 0 <= total xs.
Proof.
  induction 1; simpl; lia.
Qed.

Lemma fold_max_spec (r : list Z) (x : Z) :
  In (fold_left Z.max r x) (x :: r) /\
  forall y, In y (x :: r) -> y <= fold_left Z.max r x.
Proof.
  revert x; induction r as [|z r IH]; intros x; simpl.
  - split; [left; reflexivity | intros y [<-|[]]; lia].
  - destruct (IH (Z.max x z)) as [Hin Hub]. split.
    + destruct Hin as [Heq|Hin]; [|right; right; exact Hin].
      rewrite <- Heq. destruct (Z.max_spec x z) as [[_ ->]|[_ ->]]; auto.
    + intros y [<-|[<-|Hy]].
      * specialize (Hub (Z.max x z) (or_introl eq_refl)). lia.
      * specialize (Hub (Z.max x z) (or_introl eq_refl)). lia.
      * apply Hub. right; exact Hy.
Qed.

Lemma fold_min_spec (r : list Z) (x : Z) :
  In (fold_left Z.min r x) (x :: r) /\
  forall y, In y (x :: r) -> fold_left Z.min r x <= y.
Proof.
  revert x; induction r as [|z r IH]; intros x; simpl.
  - split; [left; reflexivity | intros y [<-|[]]; lia].
  - destruct (IH (Z.min x z)) as [Hin Hlb]. split.
    + destruct Hin as [Heq|Hin]; [|right; right; exact Hin].
      rewrite <- Heq. destruct (Z.min_spec x z) as [[_ ->]|[_ ->]]; auto.
    + intros y [<-|[<-|Hy]].
      * specialize (Hlb (Z.min x z) (or_introl eq_refl)). lia.
      * specialize (Hlb (Z.min x z) (or_introl eq_refl)). lia.
      * apply Hlb. right; exact Hy.
Qed.

(** [Math.max] of a non-empty argument list is its greatest element. *)
Lemma Math_max_nonempty (xs : list Z) :
  xs <> [] ->
  exists m, Math_max xs = ofInt m /\ In m xs /\ forall y, In y xs -> y <= m.
Proof.
  destruct xs as [|x r]; [congruence|]; intros _.
  exists (fold_left Z.max r x). split; [reflexivity|]. apply fold_max_spec.
Qed.

Lemma Math_min_nonempty (xs : list Z) :
  xs <> [] ->
  exists m, Math_min xs = ofInt m /\ In m xs /\ forall y, In y xs -> m <= y.
Proof.
  destruct xs as [|x r]; [congruence|]; intros _.
  exists (fold_left Z.min r x). split; [reflexivity|]. apply fold_min_spec.
Qed.

Lemma trimStart_nil (s : jsstring) :
  trimStart s = [] <-> forallb isWhiteSpace s = true.
Proof.
  induction s as [|c r IH]; simpl.
  - tauto.
  - destruct (isWhiteSpace c); simpl; [exact IH|].
    split; discriminate.
Qed.

Lemma trimStart_head (s r : jsstring) (c : N) :
  trimStart s = c :: r -> isWhiteSpace c = false.
Proof.
  induction s as [|d t IH]; simpl; [discriminate|].
  destruct (isWhiteSpace d) eqn:Hd; [exact IH|].
  intros H; injection H as -> _. exact Hd.
Qed.

(** A line survives the filter exactly when some code unit of it is not
    white space. *)
Lemma truthy_trim (s : jsstring) :
  truthy (trim s) = negb (forallb isWhiteSpace s).
Proof.
  unfold trim, trimEnd.
  destruct (forallb isWhiteSpace s) eqn:Hall; simpl.
  - apply trimStart_nil in Hall. rewrite Hall. reflexivity.
  - destruct (trimStart s) as [|c r] eqn:Hs.
    + apply trimStart_nil in Hs. congruence.
    + apply trimStart_head in Hs.
      destruct (trimStart (rev (c :: r))) as [|d t] eqn:Hr.
      * apply trimStart_nil in Hr. simpl in Hr.
        rewrite forallb_app in Hr. simpl in Hr. rewrite Hs in Hr.
        rewrite andb_false_r in Hr. discriminate.
      * simpl. destruct (rev t ++ [d]) eqn:E; [|reflexivity].
        destruct (rev t); discriminate.
Qed.

Lemma existsb_filter_false {A : Type} (f g : A -> bool) (l : list A) :
  existsb f l = false -> existsb f (filter g l) = false.
Proof.
  induction l as [|x r IH]; simpl; [reflexivity|].
  intros H. apply orb_false_iff in H as [Hx Hr].
  destruct (g x); simpl; [rewrite Hx|]; auto.
Qed.

Lemma scanFrom_missing (i : nat) (lines : list jsstring) :
  existsb (includes marker) lines = false -> scanFrom i lines = -1.
Proof.
  revert i; induction lines as [|l r IH]; intros i; simpl; [reflexivity|].
  intros H. apply orb_false_iff in H as [-> Hr]. apply IH, Hr.
Qed.

Lemma scanFrom_first (i : nat) (pre post : list jsstring) (m : jsstring) :
  existsb (includes marker) pre = false ->
  includes marker m = true ->
  scanFrom i (pre ++ m :: post) = Z.of_nat (i + List.length pre) + 1.
Proof.
  revert i; induction pre as [|l r IH]; intros i; simpl.
  - intros _ ->. f_equal. lia.
  - intros H Hm. apply orb_false_iff in H as [-> Hr].
    rewrite IH by assumption. lia.
Qed.

Lemma scanFrom_found (i : nat) (lines : list jsstring) :
  scanFrom i lines <> -1 ->
  exists pre m post,
    lines = pre ++ m :: post /\
    existsb (includes marker) pre = false /\
    includes marker m = true.
Proof.
  revert i; induction lines as [|l r IH]; intros i; simpl; [congruence|].
  destruct (includes marker l) eqn:Hl.
  - intros _. exists [], l, r. auto.
  - intros H. destruct (IH _ H) as (pre & m & post & -> & Hpre & Hm).
    exists (l :: pre), m, post. simpl. rewrite Hl. auto.
Qed.

Lemma slice_after (pre post : list jsstring) (m : jsstring) :
  slice (Z.of_nat (List.length pre) + 1) (pre ++ m :: post) = post.
Proof.
  unfold slice.
  replace (Z.to_nat (Z.of_nat (List.length pre) + 1))
    with (List.length pre + 1)%nat by lia.
  rewrite skipn_app, skipn_all2 by lia.
  replace (List.length pre + 1 - List.length pre)%nat with 1%nat by lia.
  reflexivity.
Qed.

(* ================================================================== *)
(** ** The statistics block under the bound on call arguments *)
(* ================================================================== *)

Lemma nonZero_length (f : AdData -> Z) (data : list AdData) :
  (List.length (nonZero f data) <= List.length data)%nat.
Proof.
  unfold nonZero. rewrite length_map. apply filter_length_le.
Qed.

Lemma Engine_minOrZero_within (maxArguments : nat) (xs : list Z) :
  (List.length xs <= maxArguments)%nat ->
  Engine.minOrZero maxArguments xs = Normal (minOrZero xs).
Proof.
  intros Hlen. unfold Engine.minOrZero, minOrZero, Engine.spread.
  destruct (0 <? List.length xs)%nat; [|reflexivity].
  destruct (Nat.ltb_spec maxArguments (List.length xs)); [lia | reflexivity].
Qed.

(** The block throws exactly when there are more records than a call can
    take as arguments, and otherwise computes [calculateStatistics]. *)
Lemma Engine_calculateStatistics_spec (maxArguments : nat)
  (data : list AdData) :
  Engine.calculateStatistics maxArguments data =
  if (maxArguments <? List.length data)%nat then Throw Engine.rangeError
  else Normal (calculateStatistics data).
Proof.
  unfold Engine.calculateStatistics. cbv zeta. unfold Engine.spread.
  rewrite !length_map, sort_length.
  destruct (Nat.ltb_spec maxArguments (List.length data)) as [Hlen|Hlen];
    [reflexivity|].
  cbn [bind].
  rewrite !Engine_minOrZero_within
    by (etransitivity; [apply nonZero_length|]; rewrite sort_length;
        exact Hlen).
  reflexivity.
Qed.

(* ================================================================== *)
(** ** The parser *)
(* ================================================================== *)

Section ParserFacts.

Variable Papa_parse : jsstring -> completion (option (list jsstring)).

Lemma nonBlankLines_specLines (csvText : jsstring) :
  nonBlankLines csvText = specLines csvText.
Proof.
  unfold nonBlankLines, specLines, blank.
  apply filter_ext. intros line. apply truthy_trim.
Qed.

Lemma secondField_spec (lines : list jsstring) (i : nat) :
  secondField lines i = specSecondField lines i.
Proof.
  unfold secondField, specSecondField.
  destruct (nth_error lines i) as [line|]; [|reflexivity].
  destruct (split comma line) as [|f0 [|f1 fs]]; reflexivity.
Qed.

Lemma parseHeader_spec (lines : list jsstring) :
  parseHeader lines = specHeader lines.
Proof.
  unfold parseHeader, specHeader.
  rewrite !secondField_spec. destruct lines; reflexivity.
Qed.

(** The two ways out of [parseCSVData]. *)
Lemma parseCSVData_unfold (csvText : jsstring) :
  let lines := nonBlankLines csvText in
  parseCSVData Papa_parse csvText =
  if findDataStartIndex lines =? -1 then None
  else match parseRows Papa_parse (slice (findDataStartIndex lines) lines) with
       | Normal records => Some (assemble lines records)
       | Throw _ => None
       end.
Proof.
  intros lines. unfold parseCSVData, parseCSVData_body. fold lines.
  destruct (findDataStartIndex lines =? -1); [reflexivity|].
  destruct (parseRows Papa_parse _) as [records|e]; reflexivity.
Qed.

Lemma parseCSVData_Some (csvText : jsstring) (r : ParsedAdData) :
  parseCSVData Papa_parse csvText = Some r ->
  let lines := nonBlankLines csvText in
  findDataStartIndex lines <> -1 /\
  exists records,
    parseRows Papa_parse (slice (findDataStartIndex lines) lines) = Normal records /\
    r = assemble lines records.
Proof.
  rewrite parseCSVData_unfold. intros H lines. fold lines in H.
  destruct (Z.eqb_spec (findDataStartIndex lines) (-1)); [discriminate|].
  split; [assumption|].
  destruct (parseRows Papa_parse _) as [records|e]; [|discriminate].
  exists records. split; [reflexivity|]. congruence.
Qed.

(** C2. For every input text, the header of a parse result is read from
    fixed positions of the filtered line list (the lines of the text that
    are not blank after trimming): line 0 is the report title; the second
    comma-delimited field of lines 1, 2, 3, 4, 5 is the username, store
    name, seller id, ad name and product id, that of line 7 the report
    creation time and that of line 8 the time range; line 6 is not read.  A
    line that does not exist or has fewer than two fields gives the empty
    string, and the header plays no part in whether the parse succeeds. *)
Theorem header_from_fixed_lines (csvText : jsstring) (r : ParsedAdData) :
  parseCSVData Papa_parse csvText = Some r ->
  header r = specHeader (specLines csvText) /\
  (forall title rest, specLines csvText = title :: rest ->
     reportTitle (header r) = title) /\
  (forall i, nth_error (specLines csvText) i = None ->
     specSecondField (specLines csvText) i = []) /\
  (forall i line, nth_error (specLines csvText) i = Some line ->
     (List.length (split comma line) < 2)%nat ->
     specSecondField (specLines csvText) i = []) /\
  (forall i line f0 f1 fs, nth_error (specLines csvText) i = Some line ->
     split comma line = f0 :: f1 :: fs ->
     specSecondField (specLines csvText) i = f1).
Proof.
  intros H. apply parseCSVData_Some in H as [_ (records & _ & ->)].
  simpl. rewrite parseHeader_spec, nonBlankLines_specLines.
  split; [reflexivity|]. split; [|split; [|split]].
  - intros title rest ->. reflexivity.
  - intros i Hi. unfold specSecondField. rewrite Hi. reflexivity.
  - intros i line Hi Hlen. unfold specSecondField. rewrite Hi.
    destruct (split comma line) as [|f0 [|f1 fs]]; simpl in *;
      [reflexivity | reflexivity | lia].
  - intros i line f0 f1 fs Hi Hs. unfold specSecondField.
    rewrite Hi, Hs. reflexivity.
Qed.

Lemma scanFrom_missing_iff (i : nat) (lines : list jsstring) :
  scanFrom i lines = -1 <-> existsb (includes marker) lines = false.
Proof.
  revert i; induction lines as [|l r IH]; intros i; simpl; [tauto|].
  destruct (includes marker l); simpl; [|apply IH].
  split; [lia | discriminate].
Qed.

Lemma parseRows_app (xs ys : list jsstring) :
  parseRows Papa_parse (xs ++ ys) =
  (here <- parseRows Papa_parse xs ;;
   later <- parseRows Papa_parse ys ;;
   Normal (here ++ later)).
Proof.
  induction xs as [|x r IH]; simpl.
  - destruct (parseRows Papa_parse ys); reflexivity.
  - destruct (parseRow Papa_parse x) as [a|e]; simpl; [|reflexivity].
    rewrite IH.
    destruct (parseRows Papa_parse r) as [b|e]; simpl; [|reflexivity].
    destruct (parseRows Papa_parse ys) as [c|e]; simpl; [|reflexivity].
    rewrite app_assoc. reflexivity.
Qed.

Lemma parseRow_valid (line : jsstring) (row : list jsstring) :
  validRow Papa_parse line row ->
  parseRow Papa_parse line = Normal [toAdData row].
Proof.
  intros (Hnb & Hp & Hlen). apply Nat.leb_le in Hlen.
  unfold parseRow. rewrite Hnb, Hp. cbn [negb bind]. rewrite Hlen.
  reflexivity.
Qed.

Lemma parseRows_valid (dataLines : list jsstring) (rows : list (list jsstring)) :
  Forall2 (validRow Papa_parse) dataLines rows ->
  parseRows Papa_parse dataLines = Normal (map toAdData rows).
Proof.
  induction 1 as [|line row ls rs Hv _ IH]; simpl; [reflexivity|].
  rewrite (parseRow_valid _ _ Hv), IH. reflexivity.
Qed.

Lemma parseRow_short (line : jsstring) (row : list jsstring) :
  Papa_parse line = Normal (Some row) ->
  (List.length row < 24)%nat ->
  parseRow Papa_parse line = Normal [].
Proof.
  intros Hp Hlen. apply Nat.leb_gt in Hlen. unfold parseRow.
  destruct (truthy (trim line)); cbn [negb]; [|reflexivity].
  rewrite Hp. cbn [bind]. rewrite Hlen. reflexivity.
Qed.

Lemma data_section_after_marker (csvText : jsstring)
  (pre post : list jsstring) (m : jsstring) :
  nonBlankLines csvText = pre ++ m :: post ->
  existsb (includes marker) pre = false ->
  includes marker m = true ->
  findDataStartIndex (nonBlankLines csvText) = Z.of_nat (List.length pre) + 1 /\
  slice (findDataStartIndex (nonBlankLines csvText)) (nonBlankLines csvText)
    = post /\
  parseCSVData Papa_parse csvText =
    match parseRows Papa_parse post with
    | Normal records => Some (assemble (nonBlankLines csvText) records)
    | Throw _ => None
    end.
Proof.
  intros Hl Hpre Hm.
  assert (Hi : findDataStartIndex (nonBlankLines csvText)
               = Z.of_nat (List.length pre) + 1).
  { rewrite Hl. unfold findDataStartIndex.
    rewrite scanFrom_first by assumption. reflexivity. }
  assert (Hs : slice (findDataStartIndex (nonBlankLines csvText))
                 (nonBlankLines csvText) = post).
  { rewrite Hi, Hl. apply slice_after. }
  split; [exact Hi|]. split; [exact Hs|].
  rewrite parseCSVData_unfold. cbv zeta. rewrite Hs.
  destruct (Z.eqb_spec (findDataStartIndex (nonBlankLines csvText)) (-1));
    [lia | reflexivity].
Qed.

(** C3. When no line of the input holds the marker (an input without any
    non-blank line included) the parse fails as a whole: the caller gets
    null, neither header nor records.  When some line holds it, the data
    section is what follows the first such line of the filtered line
    list. *)
Theorem missing_marker_fails (csvText : jsstring) :
  (existsb (includes marker) (split newline csvText) = false ->
     parseCSVData Papa_parse csvText = None) /\
  (nonBlankLines csvText = [] -> parseCSVData Papa_parse csvText = None) /\
  (forall pre m post,
     nonBlankLines csvText = pre ++ m :: post ->
     existsb (includes marker) pre = false ->
     includes marker m = true ->
     findDataStartIndex (nonBlankLines csvText) = Z.of_nat (List.length pre) + 1 /\
     slice (findDataStartIndex (nonBlankLines csvText)) (nonBlankLines csvText)
       = post /\
     parseCSVData Papa_parse csvText =
       match parseRows Papa_parse post with
       | Normal records => Some (assemble (nonBlankLines csvText) records)
       | Throw _ => None
       end).
Proof.
  split; [|split].
  - intros H. rewrite parseCSVData_unfold. cbv zeta.
    unfold findDataStartIndex. rewrite scanFrom_missing; [reflexivity|].
    apply existsb_filter_false, H.
  - intros H. rewrite parseCSVData_unfold. cbv zeta. rewrite H. reflexivity.
  - intros pre m post. apply data_section_after_marker.
Qed.

(** The [try] block under the bound on call arguments: the three ways it
    throws, and the result when it does not. *)
Lemma Engine_parseCSVData_body_unfold (maxArguments : nat)
  (csvText : jsstring) :
  let lines := nonBlankLines csvText in
  Engine.parseCSVData_body maxArguments Papa_parse csvText =
  if findDataStartIndex lines =? -1 then
    Throw (Error "Could not find data section in CSV")
  else match parseRows Papa_parse (slice (findDataStartIndex lines) lines) with
       | Normal records =>
           if (maxArguments <? List.length records)%nat
           then Throw Engine.rangeError
           else Normal (assemble lines records)
       | Throw e => Throw e
       end.
Proof.
  intros lines. unfold Engine.parseCSVData_body. fold lines.
  destruct (findDataStartIndex lines =? -1); [reflexivity|].
  destruct (parseRows Papa_parse _) as [records|e]; cbn [bind];
    [|reflexivity].
  rewrite Engine_calculateStatistics_spec.
  destruct (maxArguments <? List.length records)%nat; cbn [bind];
    [reflexivity|].
  unfold assemble. destruct (calculateStatistics records). reflexivity.
Qed.

(** C10. On an engine that passes [maxArguments] arguments to a call at
    most, [parseCSVData] returns for every input and never throws: its body
    either completes, and the caller gets the header, the records and the
    statistics together (the result that [parseCSVData] has without the
    bound), or throws, and the caller gets null.  The body throws in three
    cases only: its own error when no line holds the marker, whatever the
    field splitter raises on a data line, and the RangeError of
    [Math.max(...)] when there are more records than a call can take as
    arguments. *)
Theorem parseCSVData_never_throws (maxArguments : nat) (csvText : jsstring) :
  let lines := nonBlankLines csvText in
  let rows := parseRows Papa_parse (slice (findDataStartIndex lines) lines) in
  match Engine.parseCSVData_body maxArguments Papa_parse csvText with
  | Normal r =>
      Engine.parseCSVData maxArguments Papa_parse csvText = Some r /\
      parseCSVData Papa_parse csvText = Some r /\
      existsb (includes marker) lines = true /\
      exists records,
        rows = Normal records /\
        (List.length records <= maxArguments)%nat /\
        r = assemble lines records
  | Throw e =>
      Engine.parseCSVData maxArguments Papa_parse csvText = None /\
      ((existsb (includes marker) lines = false /\
        e = Error "Could not find data section in CSV") \/
       (existsb (includes marker) lines = true /\ rows = Throw e) \/
       (existsb (includes marker) lines = true /\
        e = Engine.rangeError /\
        exists records,
          rows = Normal records /\
          (maxArguments < List.length records)%nat))
  end.
Proof.
  intros lines rows. unfold Engine.parseCSVData.
  rewrite Engine_parseCSVData_body_unfold, parseCSVData_unfold.
  fold lines. fold rows.
  destruct (Z.eqb_spec (findDataStartIndex lines) (-1)) as [Hi|Hi].
  - apply scanFrom_missing_iff in Hi. simpl. auto.
  - assert (Hm : existsb (includes marker) lines = true).
    { destruct (existsb (includes marker) lines) eqn:E; [reflexivity|].
      apply scanFrom_missing_iff with (i := 0%nat) in E. contradiction. }
    destruct rows as [records|e] eqn:Hrows.
    + destruct (Nat.ltb_spec maxArguments (List.length records)) as [Hn|Hn].
      * split; [reflexivity|]. right. right. split; [exact Hm|].
        split; [reflexivity|]. exists records. split; [reflexivity | exact Hn].
      * split; [reflexivity|]. split; [reflexivity|]. split; [exact Hm|].
        exists records. split; [reflexivity|]. split; [exact Hn | reflexivity].
    + split; [reflexivity|]. right. left. split; [exact Hm | reflexivity].
Qed.


(** C8 (amended). A data line that the field splitter cuts into fewer than
    24 fields yields no record and raises nothing: the row loop gives what it
    gives on the same lines without it, so taking the line out of the input
    leaves the records as they are.  When every other data line is valid,
    each of them yields its record, in order, and the record count is the
    number of data lines less one; so is the record count of the result
    when the lines are the data section of an input. *)
Theorem short_row_dropped (pre post : list jsstring) (line : jsstring)
  (row : list jsstring) :
  Papa_parse line = Normal (Some row) ->
  (List.length row < 24)%nat ->
  parseRow Papa_parse line = Normal [] /\
  parseRows Papa_parse (pre ++ line :: post)
    = parseRows Papa_parse (pre ++ post) /\
  (forall rows,
     Forall2 (validRow Papa_parse) (pre ++ post) rows ->
     parseRows Papa_parse (pre ++ line :: post) = Normal (map toAdData rows) /\
     List.length (map toAdData rows)
       = (List.length (pre ++ line :: post) - 1)%nat /\
     forall csvText head m,
       nonBlankLines csvText = head ++ m :: pre ++ line :: post ->
       existsb (includes marker) head = false ->
       includes marker m = true ->
       exists r,
         parseCSVData Papa_parse csvText = Some r /\
         Permutation (map toAdData rows) (data r) /\
         List.length (data r) = (List.length (pre ++ line :: post) - 1)%nat).
Proof.
  intros Hp Hlen.
  assert (Hrow : parseRow Papa_parse line = Normal [])
    by (eapply parseRow_short; eassumption).
  assert (Hsame : parseRows Papa_parse (pre ++ line :: post)
                  = parseRows Papa_parse (pre ++ post)).
  { rewrite !parseRows_app. simpl. rewrite Hrow. simpl.
    destruct (parseRows Papa_parse pre); simpl; [|reflexivity].
    destruct (parseRows Papa_parse post); reflexivity. }
  split; [exact Hrow|]. split; [exact Hsame|].
  intros rows Hvalid.
  assert (Hcount : List.length (map toAdData rows)
                   = (List.length (pre ++ line :: post) - 1)%nat).
  { rewrite length_map, <- (Forall2_length Hvalid), !length_app. simpl. lia. }
  assert (Hrows : parseRows Papa_parse (pre ++ line :: post)
                  = Normal (map toAdData rows)).
  { rewrite Hsame. apply parseRows_valid, Hvalid. }
  split; [exact Hrows|]. split; [exact Hcount|].
  intros csvText head m Hl Hhead Hm.
  destruct (data_section_after_marker csvText head _ m Hl Hhead Hm)
    as (_ & _ & Hparse).
  rewrite Hrows in Hparse.
  eexists. split; [exact Hparse|]. simpl. split.
  - apply Permutation_sym, sort_perm.
  - rewrite sort_length. exact Hcount.
Qed.

End ParserFacts.

(* ================================================================== *)
(** ** The statistics *)
(* ================================================================== *)


(** The rate of two totals that are integers up to 2^53, none negative. *)
Lemma rate_exact (c v : Z) :
  0 <= c <= two53 -> 0 <= v <= two53 ->
  (v = 0 -> rate (ofInt c) (ofInt v) = ofInt 0) /\
  (0 < v ->
   rate (ofInt c) (ofInt v) = multiply (divide (ofInt c) (ofInt v)) (ofInt 100) /\
   closeTo (rate (ofInt c) (ofInt v)) (exactPercent c v)) /\
  isFinite (rate (ofInt c) (ofInt v)) = true.
Proof.
  intros Hc Hv. unfold rate. rewrite gt_ofInt.
  destruct (Z.ltb_spec 0 v) as [Hpos|Hzero].
  - destruct (percent_close c v Hc ltac:(lia)) as (r & Hr & Hclose).
    rewrite Hr. split; [lia|]. split; [|reflexivity].
    intros _. split; [reflexivity | exact Hclose].
  - split; [reflexivity|]. split; [lia | reflexivity].
Qed.

Lemma In_nonZero (f : AdData -> Z) (l : list AdData) (x : Z) :
  In x (nonZero f l) <-> exists item, In item l /\ f item = x /\ 0 < x.
Proof.
  unfold nonZero. rewrite in_map_iff. split.
  - intros (item & <- & Hin). apply filter_In in Hin as [Hin Hpos].
    exists item. repeat split; [exact Hin | lia].
  - intros (item & Hin & <- & Hpos). exists item. split; [reflexivity|].
    apply filter_In. split; [exact Hin | lia].
Qed.

(** The zero-excluded minimum of one metric over an array. *)
Lemma minOrZero_nonZero (f : AdData -> Z) (l : list AdData) :
  (Forall (fun item => f item <= 0) l -> minOrZero (nonZero f l) = ofInt 0) /\
  (Exists (fun item => 0 < f item) l ->
   exists item,
     In item l /\ 0 < f item /\
     minOrZero (nonZero f l) = ofInt (f item) /\
     Forall (fun other => 0 < f other -> f item <= f other) l).
Proof.
  split.
  - intros Hall. destruct (nonZero f l) as [|x r] eqn:E; [reflexivity|].
    assert (Hx : In x (nonZero f l)) by (rewrite E; left; reflexivity).
    apply In_nonZero in Hx as (item & Hin & <- & Hpos).
    apply (proj1 (Forall_forall _ _) Hall) in Hin. lia.
  - intros Hex. apply Exists_exists in Hex as (w & Hw & Hwpos).
    assert (Hne : nonZero f l <> []).
    { intros E. assert (Hin : In (f w) (nonZero f l))
        by (apply In_nonZero; exists w; auto).
      rewrite E in Hin. destruct Hin. }
    destruct (Math_min_nonempty _ Hne) as (least & Hmin & Hin & Hlb).
    apply In_nonZero in Hin as (item & Hitem & <- & Hpos).
    exists item. split; [exact Hitem|]. split; [exact Hpos|]. split.
    + unfold minOrZero. destruct (nonZero f l); [congruence|]. exact Hmin.
    + apply Forall_forall. intros other Hother Hopos.
      apply Hlb, In_nonZero. exists other. auto.
Qed.

(** [Math.max] over a non-empty array is the true maximum of the metric. *)
Lemma maxValues_nonempty (records : list AdData) (m : metric) :
  records <> [] ->
  exists item,
    In item records /\
    extremeOf m (maxValues (snd (calculateStatistics records)))
      = ofInt (metricOf m item) /\
    Forall (fun other => metricOf m other <= metricOf m item) records.
Proof.
  intros Hne.
  assert (Hs : map (metricOf m) (sort byViewsDesc records) <> []).
  { intros E. apply map_eq_nil in E. apply Hne.
    apply length_zero_iff_nil. rewrite <- (sort_length byViewsDesc), E.
    reflexivity. }
  destruct (Math_max_nonempty _ Hs) as (top & Hmax & Hin & Hub).
  apply in_map_iff in Hin as (item & <- & Hin).
  exists item. split; [apply (sort_In byViewsDesc), Hin|]. split.
  - destruct m; exact Hmax.
  - apply Forall_forall. intros other Hother.
    apply Hub, in_map, (sort_In byViewsDesc), Hother.
Qed.

(** C6 (amended). When, for each of views, clicks, cost, gmv and
    conversions, the values of the records add up in absolute value to
    2^53 at most, each total is the sum of its field over all records,
    whether the records are taken in source order or as the result returns
    them. *)
Theorem totals_are_sums (records : list AdData) :
  safeSum views records ->
  safeSum clicks records ->
  safeSum cost records ->
  safeSum gmv records ->
  safeSum conversions records ->
  let st := snd (calculateStatistics records) in
  let returned := fst (calculateStatistics records) in
  (totalViews st = ofInt (total (map views records)) /\
   totalClicks st = ofInt (total (map clicks records)) /\
   totalCost st = ofInt (total (map cost records)) /\
   totalGmv st = ofInt (total (map gmv records)) /\
   totalConversions st = ofInt (total (map conversions records))) /\
  (totalViews st = ofInt (total (map views returned)) /\
   totalClicks st = ofInt (total (map clicks returned)) /\
   totalCost st = ofInt (total (map cost returned)) /\
   totalGmv st = ofInt (total (map gmv returned)) /\
   totalConversions st = ofInt (total (map conversions returned))).
Proof.
  intros Hv Hc Ht Hg Hk. simpl. split.
  - repeat split; apply sumOf_exact; assumption.
  - repeat split; rewrite sumOf_exact by assumption; f_equal;
      apply total_perm, Permutation_map, Permutation_sym, sort_perm.
Qed.



(** C7 (amended). When the views, clicks and conversions of the records are
    not negative and add up to 2^53 at most each, the average click rate is
    0 when totalViews is 0 and otherwise totalClicks / totalViews * 100,
    within a relative error of 2^-51 of the exact quotient; the average
    conversion rate is 0 when totalClicks is 0 and otherwise
    totalConversions / totalClicks * 100, as closely.  Neither rate is NaN
    or infinite. *)
Theorem rates_guarded (records : list AdData) :
  Forall (fun item => 0 <= views item /\ 0 <= clicks item /\
                      0 <= conversions item) records ->
  safeSum views records ->
  safeSum clicks records ->
  safeSum conversions records ->
  let st := snd (calculateStatistics records) in
  let v := total (map views records) in
  let c := total (map clicks records) in
  let k := total (map conversions records) in
  (totalViews st = ofInt v /\ totalClicks st = ofInt c /\
   totalConversions st = ofInt k) /\
  (v = 0 -> averageClickRate st = ofInt 0) /\
  (v <> 0 ->
   averageClickRate st
     = multiply (divide (totalClicks st) (totalViews st)) (ofInt 100) /\
   closeTo (averageClickRate st) (exactPercent c v)) /\
  (c = 0 -> averageConversionRate st = ofInt 0) /\
  (c <> 0 ->
   averageConversionRate st
     = multiply (divide (totalConversions st) (totalClicks st)) (ofInt 100) /\
   closeTo (averageConversionRate st) (exactPercent k c)) /\
  isFinite (averageClickRate st) = true /\
  isFinite (averageConversionRate st) = true.
Proof.
  intros Hpos Hv Hc Hk. cbv zeta.
  cbn [calculateStatistics snd averageClickRate averageConversionRate
       totalViews totalClicks totalConversions].
  rewrite !sumOf_exact by assumption.
  assert (Habs : forall f : AdData -> Z,
             Forall (fun item => 0 <= f item) records ->
             total (map (fun item => Z.abs (f item)) records)
             = total (map f records)).
  { intros f Hf. f_equal. apply map_ext_in. intros item Hin.
    rewrite Forall_forall in Hf. apply Z.abs_eq, Hf, Hin. }
  assert (Hv0 : 0 <= total (map views records) <= two53).
  { split; [apply total_nonneg, Forall_map|].
    - eapply Forall_impl; [|exact Hpos]. cbv beta. tauto.
    - rewrite <- Habs; [exact Hv|].
      eapply Forall_impl; [|exact Hpos]. cbv beta. tauto. }
  assert (Hc0 : 0 <= total (map clicks records) <= two53).
  { split; [apply total_nonneg, Forall_map|].
    - eapply Forall_impl; [|exact Hpos]. cbv beta. tauto.
    - rewrite <- Habs; [exact Hc|].
      eapply Forall_impl; [|exact Hpos]. cbv beta. tauto. }
  assert (Hk0 : 0 <= total (map conversions records) <= two53).
  { split; [apply total_nonneg, Forall_map|].
    - eapply Forall_impl; [|exact Hpos]. cbv beta. tauto.
    - rewrite <- Habs; [exact Hk|].
      eapply Forall_impl; [|exact Hpos]. cbv beta. tauto. }
  destruct (rate_exact _ _ Hc0 Hv0) as (Hz1 & Hp1 & Hf1).
  destruct (rate_exact _ _ Hk0 Hc0) as (Hz2 & Hp2 & Hf2).
  split; [repeat split|]. split; [exact Hz1|].
  split; [intros Hne; apply Hp1; lia|]. split; [exact Hz2|].
  split; [intros Hne; apply Hp2; lia|]. split; assumption.
Qed.

(** C1 (the code at the failing input). A report with its header lines and
    column-header line but no data row parses to an empty record sequence,
    and every field of maxValues is minus infinity, not 0. *)
Theorem maxValues_of_empty_report
  (Papa_parse : jsstring -> completion (option (list jsstring))) :
  exists r,
    parseCSVData Papa_parse (Sample.report []) = Some r /\
    data r = [] /\
    Forall (fun m => extremeOf m (maxValues (statistics r)) = NegInfinity /\
                     extremeOf m (maxValues (statistics r)) <> ofInt 0)
           metrics.
Proof.
  eexists. split; [vm_compute; reflexivity|]. split; [reflexivity|].
  repeat constructor; discriminate.
Qed.

(* ================================================================== *)
(** ** The properties on the sample reports *)
(* ================================================================== *)

Lemma header_from_fixed_lines_witness :
  (exists r,
     parseCSVData plainSplit (Sample.report [Sample.shoes]) = Some r /\
     header r = specHeader (specLines (Sample.report [Sample.shoes])) /\
     username (header r) = lit "alice" /\
     timeRange (header r) = lit "2024-01-01 - 2024-01-31") /\
  (exists r,
     parseCSVData plainSplit Sample.bare = Some r /\
     header r = specHeader (specLines Sample.bare) /\
     reportTitle (header r) = lit "Keyword report" /\
     storeName (header r) = lit "shoes" /\
     sellerId (header r) = [] /\
     timeRange (header r) = []).
Proof.
  split.
  - eexists. split; [vm_compute; reflexivity|].
    split; [|split; vm_compute; reflexivity].
    apply (header_from_fixed_lines plainSplit (Sample.report [Sample.shoes])).
    vm_compute. reflexivity.
  - eexists. split; [vm_compute; reflexivity|].
    split; [|repeat split; vm_compute; reflexivity].
    apply (header_from_fixed_lines plainSplit Sample.bare).
    vm_compute. reflexivity.
Defined.

Lemma missing_marker_fails_witness :
  parseCSVData plainSplit (Sample.unlines Sample.headerLines) = None /\
  parseCSVData plainSplit [] = None /\
  findDataStartIndex (nonBlankLines (Sample.report [Sample.shoes])) = 10 /\
  slice 10 (nonBlankLines (Sample.report [Sample.shoes])) = [Sample.shoes].
Proof.
  split; [|split].
  - apply (proj1 (missing_marker_fails plainSplit
                    (Sample.unlines Sample.headerLines))).
    vm_compute. reflexivity.
  - apply (proj1 (proj2 (missing_marker_fails plainSplit []))).
    vm_compute. reflexivity.
  - destruct (proj2 (proj2 (missing_marker_fails plainSplit
                              (Sample.report [Sample.shoes])))
                Sample.headerLines Sample.columns [Sample.shoes])
      as (Hstart & Hslice & _); try (vm_compute; reflexivity).
    split; [exact Hstart|]. rewrite Hstart in Hslice. exact Hslice.
Defined.


Lemma short_row_dropped_witness :
  (List.length (split comma Sample.hat) < 24)%nat /\
  parseRows plainSplit [Sample.shoes; Sample.hat; Sample.boots]
    = parseRows plainSplit [Sample.shoes; Sample.boots] /\
  parseRows plainSplit [Sample.shoes; Sample.hat; Sample.boots]
    = Normal [Sample.shoesRecord; Sample.bootsRecord] /\
  exists r,
    parseCSVData plainSplit
      (Sample.report [Sample.shoes; Sample.hat; Sample.boots]) = Some r /\
    List.length (data r) = 2%nat.
Proof.
  assert (Hlen : (List.length (split comma Sample.hat) < 24)%nat)
    by (vm_compute; lia).
  destruct (short_row_dropped plainSplit [Sample.shoes] [Sample.boots]
              Sample.hat (split comma Sample.hat) eq_refl Hlen)
    as (_ & Hsame & Hothers).
  destruct (Hothers [split comma Sample.shoes; split comma Sample.boots])
    as (Hrows & _ & Hparse).
  { repeat constructor; vm_compute; (reflexivity || lia). }
  split; [exact Hlen|]. split; [exact Hsame|]. split; [exact Hrows|].
  destruct (Hparse (Sample.report [Sample.shoes; Sample.hat; Sample.boots])
              Sample.headerLines Sample.columns)
    as (r & Hr & _ & Hcount); try (vm_compute; reflexivity).
  exists r. split; [exact Hr | exact Hcount].
Defined.


Lemma totals_are_sums_witness :
  safeSum views [Sample.shoesRecord; Sample.bootsRecord] /\
  totalViews (snd (calculateStatistics
                     [Sample.shoesRecord; Sample.bootsRecord])) = ofInt 110 /\
  totalCost (snd (calculateStatistics
                    [Sample.shoesRecord; Sample.bootsRecord])) = ofInt 120 /\
  map views (fst (calculateStatistics
                    [Sample.shoesRecord; Sample.bootsRecord])) = [100; 10].
Proof.
  assert (Hsafe : forall f,
             In f [views; clicks; cost; gmv; conversions] ->
             safeSum f [Sample.shoesRecord; Sample.bootsRecord]).
  { intros f [<-|[<-|[<-|[<-|[<-|[]]]]]]; vm_compute; discriminate. }
  split; [apply Hsafe; simpl; tauto|].
  pose proof (totals_are_sums [Sample.shoesRecord; Sample.bootsRecord]
                (Hsafe views ltac:(simpl; tauto))
                (Hsafe clicks ltac:(simpl; tauto))
                (Hsafe cost ltac:(simpl; tauto))
                (Hsafe gmv ltac:(simpl; tauto))
                (Hsafe conversions ltac:(simpl; tauto)))
    as [(Hviews & _ & Hcost & _) _].
  split; [exact Hviews|]. split; [exact Hcost | reflexivity].
Defined.

Lemma rates_guarded_witness :
  averageClickRate (snd (calculateStatistics
                           [Sample.shoesRecord; Sample.bootsRecord]))
    = Num (10 # 1) /\
  closeTo (averageClickRate (snd (calculateStatistics
                                    [Sample.shoesRecord; Sample.bootsRecord])))
          (exactPercent 11 110) /\
  averageClickRate (snd (calculateStatistics [])) = ofInt 0.
Proof.
  assert (Hsafe : forall f,
             In f [views; clicks; conversions] ->
             safeSum f [Sample.shoesRecord; Sample.bootsRecord]).
  { intros f [<-|[<-|[<-|[]]]]; vm_compute; discriminate. }
  assert (Hpos : Forall (fun item => 0 <= views item /\ 0 <= clicks item /\
                                     0 <= conversions item)
                        [Sample.shoesRecord; Sample.bootsRecord]).
  { repeat constructor; vm_compute; discriminate. }
  assert (Hnone : forall f : AdData -> Z, safeSum f [])
    by (intros f; vm_compute; discriminate).
  split; [vm_compute; reflexivity|]. split.
  - pose proof (rates_guarded [Sample.shoesRecord; Sample.bootsRecord] Hpos
                  (Hsafe views ltac:(simpl; tauto))
                  (Hsafe clicks ltac:(simpl; tauto))
                  (Hsafe conversions ltac:(simpl; tauto)))
      as (_ & _ & Hrate & _).
    apply Hrate. vm_compute. discriminate.
  - pose proof (rates_guarded [] (Forall_nil _) (Hnone views) (Hnone clicks)
                  (Hnone conversions)) as (_ & Hzero & _).
    apply Hzero. reflexivity.
Defined.

(** C6, as stated, fails on a report whose rows have 1, 1, 2^53 and 1
    views: the views add up to 2^53 + 3, the total the parser stores is
    2^53 + 4, and adding the views of the returned records in their order
    gives 2^53. *)
Lemma total_of_large_views :
  exists r,
    parseCSVData plainSplit
      (Sample.report [Sample.single; Sample.single; Sample.heavy;
                      Sample.single]) = Some r /\
    map views (data r) = [9007199254740992; 1; 1; 1] /\
    total (map views (data r)) = 9007199254740995 /\
    totalViews (statistics r) = ofInt 9007199254740996 /\
    totalViews (statistics r) <> ofInt (total (map views (data r))) /\
    sumOf views (data r) = ofInt 9007199254740992.
Proof.
  eexists. split; [vm_compute; reflexivity|].
  vm_compute. repeat split. discriminate.
Qed.

(** C7, as stated, fails on a report whose only row has views and clicks of
    310 digits: both read as infinity, totalViews is not 0, and the average
    click rate is infinity / infinity * 100, which is NaN.  With one view
    and clicks of 310 digits the rate is infinite. *)
Lemma rate_of_overflowing_fields :
  (exists r,
     parseCSVData plainSplit (Sample.report [Sample.flood]) = Some r /\
     totalViews (statistics r) = PosInfinity /\
     totalClicks (statistics r) = PosInfinity /\
     averageClickRate (statistics r) = NaN) /\
  (exists r,
     parseCSVData plainSplit (Sample.report [Sample.surge]) = Some r /\
     totalViews (statistics r) = ofInt 1 /\
     totalClicks (statistics r) = PosInfinity /\
     averageClickRate (statistics r) = PosInfinity).
Proof.
  split; eexists; (split; [vm_compute; reflexivity|]);
    vm_compute; repeat split.
Qed.

(** C8, as stated, fails on the rows shoes, hat, boots, of which hat has
    ten fields: the record count is 2 with the hat row and 2 without it,
    not one less. *)
Lemma record_count_without_short_row :
  exists r1 r2,
    parseCSVData plainSplit
      (Sample.report [Sample.shoes; Sample.hat; Sample.boots]) = Some r1 /\
    parseCSVData plainSplit
      (Sample.report [Sample.shoes; Sample.boots]) = Some r2 /\
    plainSplit Sample.hat = Normal (Some (split comma Sample.hat)) /\
    List.length (split comma Sample.hat) = 10%nat /\
    List.length (data r1) = 2%nat /\
    List.length (data r2) = 2%nat /\
    List.length (data r1) <> (List.length (data r2) - 1)%nat.
Proof.
  do 2 eexists. split; [vm_compute; reflexivity|].
  split; [vm_compute; reflexivity|].
  repeat split. vm_compute. discriminate.
Qed.

(* ================================================================== *)
(** ** DataTable: pagination *)
(* ================================================================== *)

Lemma ceil_div_bounds (a b : Z) :
  0 < b ->
  exists t, Qceiling (inject_Z a / inject_Z b) = t /\ (t - 1) * b < a <= t * b.
Proof.
  intros Hb. eexists. split; [reflexivity|].
  destruct b as [|p|p]; try lia.
  unfold Qceiling, Qfloor, Qdiv, Qinv, Qmult, Qopp, inject_Z. simpl.
  rewrite Z.mul_1_r.
  pose proof (Z.div_mod (- a) (Z.pos p) ltac:(lia)) as Hdm.
  pose proof (Z.mod_pos_bound (- a) (Z.pos p) ltac:(lia)) as Hm.
  nia.
Qed.

Lemma totalPages_bounds (count itemsPerPage : Z) :
  0 < itemsPerPage ->
  0 <= count ->
  exists t,
    Table.totalPages count itemsPerPage = ofInt t /\
    0 <= t /\
    (t - 1) * itemsPerPage < count <= t * itemsPerPage.
Proof.
  intros Hp Hc.
  destruct (ceil_div_bounds count itemsPerPage Hp) as (t & Ht & Hb).
  exists t. split; [|split; [nia | exact Hb]].
  unfold Table.totalPages, div.
  destruct (Z.eqb_spec itemsPerPage 0); [lia|].
  simpl. rewrite Ht. reflexivity.
Qed.

(** X1. With a positive page size, the number of pages is the least
    number of pages of that size that hold all the rows. *)
Theorem totalPages_covers (count itemsPerPage : Z) :
  0 < itemsPerPage ->
  0 <= count ->
  exists t,
    Table.totalPages count itemsPerPage = ofInt t /\
    0 <= t /\
    (t - 1) * itemsPerPage < count <= t * itemsPerPage.
Proof.
  intros Hp Hc. unfold Table.totalPages, div, Math_ceil.
  destruct (Z.eqb_spec itemsPerPage 0) as [Hz|_]; [lia|].
  destruct (ceil_div_bounds count itemsPerPage Hp) as (t & Ht & Hlo & Hhi).
  exists t. rewrite Ht. split; [reflexivity|].
  split; [nia | split; assumption].
Qed.

Lemma firstn_min_length {A : Type} (n : nat) (l : list A) :
  firstn (Nat.min n (List.length l)) l = firstn n l.
Proof.
  destruct (Nat.le_ge_cases n (List.length l)) as [H|H].
  - rewrite Nat.min_l by exact H. reflexivity.
  - rewrite Nat.min_r by exact H. rewrite !firstn_all2; auto.
Qed.

(** A page, for a page number from 1 on and a positive page size. *)
Lemma paginatedData_chunk {A : Type} (rows : list A)
  (currentPage itemsPerPage : Z) :
  1 <= currentPage -> 0 < itemsPerPage ->
  Table.paginatedData rows currentPage itemsPerPage
  = firstn (Z.to_nat itemsPerPage)
      (skipn (Z.to_nat (currentPage - 1) * Z.to_nat itemsPerPage) rows).
Proof.
  intros Hc Hp.
  unfold Table.paginatedData, Table.startIndex, Array_slice, relativeIndex.
  set (len := List.length rows).
  set (s := (currentPage - 1) * itemsPerPage).
  assert (Hs : 0 <= s) by (unfold s; nia).
  replace (Z.to_nat (currentPage - 1) * Z.to_nat itemsPerPage)%nat
    with (Z.to_nat s) by (unfold s; nia).
  destruct (Z.ltb_spec s 0); [lia|].
  destruct (Z.ltb_spec (s + itemsPerPage) 0); [lia|].
  destruct (Z.le_gt_cases (Z.of_nat len) s) as [Hout|Hin].
  - rewrite (skipn_all2 rows (n := Z.to_nat s)) by (fold len; lia).
    rewrite firstn_nil.
    rewrite skipn_all2 by (fold len; lia). apply firstn_nil.
  - rewrite (Z.min_l s) by lia.
    rewrite <- (firstn_min_length (Z.to_nat itemsPerPage)).
    f_equal. rewrite length_skipn. fold len. lia.
Qed.

Lemma chunks_concat {A : Type} (n k : nat) (l : list A) :
  (0 < n)%nat -> (List.length l <= k * n)%nat ->
  concat (map (fun i => firstn n (skipn (i * n) l)) (seq 0 k)) = l.
Proof.
  intros Hn. revert l. induction k as [|k IH]; intros l Hlen.
  - destruct l; [reflexivity | simpl in Hlen; lia].
  - change (seq 0 (S k)) with (0%nat :: seq 1 k).
    rewrite <- seq_shift. cbn [map concat]. rewrite map_map.
    change (0 * n)%nat with 0%nat. cbn [skipn].
    transitivity (firstn n l ++ skipn n l); [|apply firstn_skipn].
    f_equal.
    transitivity
      (concat (map (fun i => firstn n (skipn (i * n) (skipn n l)))
                   (seq 0 k))).
    + f_equal. apply map_ext. intros i.
      rewrite skipn_skipn. f_equal. f_equal. lia.
    + apply IH. rewrite length_skipn. lia.
Qed.

(** X2. With a positive page size, pages 1 to totalPages, one after the
    other, are exactly the rows: no row is lost, repeated or moved. *)
Theorem pages_partition_rows {A : Type} (rows : list A)
  (itemsPerPage t : Z) :
  0 < itemsPerPage ->
  Table.totalPages (Z.of_nat (List.length rows)) itemsPerPage = ofInt t ->
  concat (map (fun i => Table.paginatedData rows (Z.of_nat i + 1) itemsPerPage)
              (seq 0 (Z.to_nat t)))
  = rows.
Proof.
  intros Hp Ht.
  destruct (totalPages_bounds (Z.of_nat (List.length rows)) itemsPerPage Hp
              ltac:(lia)) as (t' & Ht' & Hpos & Hb).
  rewrite Ht in Ht'. unfold ofInt in Ht'. injection Ht' as ->.
  transitivity
    (concat (map (fun i => firstn (Z.to_nat itemsPerPage)
                             (skipn (i * Z.to_nat itemsPerPage) rows))
                 (seq 0 (Z.to_nat t')))).
  - f_equal. apply map_ext. intros i.
    rewrite paginatedData_chunk by lia.
    f_equal. f_equal. lia.
  - apply chunks_concat; nia.
Qed.

Lemma paginatedData_length {A : Type} (rows : list A)
  (currentPage itemsPerPage : Z) :
  1 <= currentPage -> 0 < itemsPerPage ->
  Z.of_nat (List.length (Table.paginatedData rows currentPage itemsPerPage))
  = Z.max 0 (Z.min itemsPerPage
               (Z.of_nat (List.length rows)
                - Table.startIndex currentPage itemsPerPage)).
Proof.
  intros Hc Hp. rewrite paginatedData_chunk by assumption.
  rewrite length_firstn, length_skipn. unfold Table.startIndex. nia.
Qed.

(** X3. With a positive page size: every page before the last is full, the
    last page holds between one row and a full page, and a page number
    beyond the last page shows no row at all. *)
Theorem page_sizes {A : Type} (rows : list A)
  (currentPage itemsPerPage t : Z) :
  0 < itemsPerPage ->
  1 <= currentPage ->
  Table.totalPages (Z.of_nat (List.length rows)) itemsPerPage = ofInt t ->
  let page := Table.paginatedData rows currentPage itemsPerPage in
  (currentPage < t -> Z.of_nat (List.length page) = itemsPerPage) /\
  (currentPage = t ->
     1 <= Z.of_nat (List.length page) <= itemsPerPage /\
     Z.of_nat (List.length page)
       = Z.of_nat (List.length rows) - (t - 1) * itemsPerPage) /\
  (t < currentPage -> page = []).
Proof.
  intros Hp Hc Ht page.
  destruct (totalPages_bounds (Z.of_nat (List.length rows)) itemsPerPage Hp
              ltac:(lia)) as (t' & Ht' & Hpos & Hb).
  rewrite Ht in Ht'. unfold ofInt in Ht'. injection Ht' as ->.
  pose proof (paginatedData_length rows currentPage itemsPerPage Hc Hp)
    as Hlen.
  fold page in Hlen. unfold Table.startIndex in Hlen.
  split; [|split].
  - intros Hlt. nia.
  - intros ->. nia.
  - intros Hgt. apply length_zero_iff_nil. nia.
Qed.

(** X4. On a page from 1 to totalPages, "Showing a to b" counts exactly
    the rows on the page. *)
Theorem showing_range_matches_page {A : Type} (rows : list A)
  (currentPage itemsPerPage t : Z) :
  0 < itemsPerPage ->
  Table.totalPages (Z.of_nat (List.length rows)) itemsPerPage = ofInt t ->
  1 <= currentPage <= t ->
  let count := Z.of_nat (List.length rows) in
  Table.showingTo count currentPage itemsPerPage
  - Table.showingFrom currentPage itemsPerPage + 1
  = Z.of_nat (List.length (Table.paginatedData rows currentPage itemsPerPage))
  /\ 1 <= Table.showingFrom currentPage itemsPerPage
     <= Table.showingTo count currentPage itemsPerPage
  /\ Table.showingTo count currentPage itemsPerPage <= count.
Proof.
  intros Hp Ht Hc count.
  destruct (totalPages_bounds count itemsPerPage Hp ltac:(unfold count; lia))
    as (t' & Ht' & Hpos & Hb).
  unfold count in Ht'. rewrite Ht in Ht'. unfold ofInt in Ht'.
  injection Ht' as ->.
  rewrite paginatedData_length by lia. fold count.
  unfold Table.showingTo, Table.showingFrom, Table.startIndex. nia.
Qed.

(** X5. For a current page from 1 to totalPages there are min(5,
    totalPages) page buttons, consecutive, all from 1 to totalPages, and
    the current page is one of them.  Previous and Next lead to a page
    from 1 to totalPages as well, and each leaves the page where it is
    exactly when its button is disabled: on page 1 for Previous, on the
    last page for Next.  So no click takes the current page out of
    range. *)
Theorem page_navigation_in_range (t currentPage : Z) :
  1 <= currentPage <= t ->
  let buttons := Table.pageNumbers t currentPage in
  Z.of_nat (List.length buttons) = Z.min 5 t /\
  Forall (fun p => 1 <= p <= t) buttons /\
  In currentPage buttons /\
  (forall i, (i < List.length buttons)%nat ->
     nth i buttons 0 = nth 0 buttons 0 + Z.of_nat i) /\
  1 <= Table.previousPage currentPage <= t /\
  1 <= Table.nextPage t currentPage <= t /\
  (Table.previousPage currentPage = currentPage <-> currentPage = 1) /\
  (Table.nextPage t currentPage = currentPage <-> currentPage = t) /\
  (currentPage <> 1 -> Table.previousPage currentPage = currentPage - 1) /\
  (currentPage <> t -> Table.nextPage t currentPage = currentPage + 1).
Proof.
  intros Hc buttons. unfold buttons, Table.pageNumbers.
  set (first := Z.max 1 (Z.min (t - 4) (currentPage - 2))).
  set (n := Z.to_nat (Z.min 5 t)).
  split; [rewrite length_map, length_seq; unfold n; lia|].
  split; [|split; [|split]].
  - apply Forall_forall. intros p Hin.
    apply in_map_iff in Hin as (i & <- & Hi). apply in_seq in Hi.
    unfold first, n in *. lia.
  - apply in_map_iff. exists (Z.to_nat (currentPage - first)).
    split; [unfold first; lia|].
    apply in_seq. unfold first, n. lia.
  - intros i Hi. rewrite length_map, length_seq in Hi.
    rewrite !(nth_indep _ 0 (first + Z.of_nat 0))
      by (rewrite length_map, length_seq; lia).
    rewrite !(map_nth (fun i => first + Z.of_nat i)).
    rewrite !seq_nth by lia. lia.
  - unfold Table.previousPage, Table.nextPage. lia.
Qed.

(* ================================================================== *)
(** ** DataTable: filtering and sorting *)
(* ================================================================== *)

Section SortedBy.
Context {A : Type} (cmp : A -> A -> Z) (R : A -> A -> Prop).
Hypothesis cmp_le : forall x y, cmp x y <= 0 -> R x y.
Hypothesis cmp_gt : forall x y, 0 < cmp x y -> R y x.
Hypothesis R_trans : forall x y z, R x y -> R y z -> R x z.



End SortedBy.

Section RowsFacts.

Variable toLowerCase : jsstring -> jsstring.
Variable parseFloat : jsstring -> number.
Variable localeCompare : jsstring -> jsstring -> Z.

(** X6. Whatever the search term, the type filter, the sort column and the
    direction, the rows of the table are the records that pass the filter,
    rearranged: none is lost, repeated or made up. *)
Theorem table_rows_are_the_matching_records (data : list AdData)
  (searchTerm keywordTypeFilter : jsstring)
  (sortField : Table.SortField) (sortDirection : Table.SortDirection) :
  let rows := Table.filteredAndSortedData toLowerCase parseFloat localeCompare
                data searchTerm keywordTypeFilter sortField sortDirection in
  Permutation rows
    (filter (Table.matches toLowerCase searchTerm keywordTypeFilter) data) /\
  Forall (fun row => In row data /\
                     Table.matches toLowerCase searchTerm keywordTypeFilter row
                     = true) rows /\
  (List.length rows <= List.length data)%nat.
Proof.
  cbv zeta. unfold Table.filteredAndSortedData.
  set (cmp := fun a b => _).
  split; [apply sort_perm|]. split.
  - apply Forall_forall. intros row Hrow.
    apply (proj1 (sort_In cmp _ _)) in Hrow.
    apply filter_In in Hrow. exact Hrow.
  - rewrite sort_length. apply filter_length_le.
Qed.



(** X8. With an empty search box and the type filter on "all", every
    record is in the table. *)
Theorem no_filter_shows_every_record (data : list AdData)
  (sortField : Table.SortField) (sortDirection : Table.SortDirection) :
  toLowerCase [] = [] ->
  Permutation
    (Table.filteredAndSortedData toLowerCase parseFloat localeCompare
       data [] (lit "all") sortField sortDirection)
    data.
Proof.
  intros Hlow. unfold Table.filteredAndSortedData.
  eapply perm_trans; [apply sort_perm|].
  replace (filter _ data) with data; [apply Permutation_refl|].
  symmetry. apply forallb_filter_id. apply forallb_forall. intros item _.
  unfold Table.matches. rewrite Hlow.
  destruct (toLowerCase (keyword item)); reflexivity.
Qed.


End RowsFacts.

Lemma strEq_true (a b : jsstring) : strEq a b = true <-> a = b.
Proof.
  unfold strEq. destruct (list_eq_dec N.eq_dec a b); split;
    congruence || discriminate || auto.
Qed.

Lemma existsb_strEq (x : jsstring) (seen : list jsstring) :
  existsb (strEq x) seen = true <-> In x seen.
Proof.
  rewrite existsb_exists. split.
  - intros (y & Hy & Heq). apply strEq_true in Heq. subst. exact Hy.
  - intros H. exists x. split; [exact H | apply strEq_true; reflexivity].
Qed.

Lemma distinct_from (xs seen : list jsstring) :
  NoDup seen ->
  let result :=
    fold_left (fun seen x => if existsb (strEq x) seen then seen
                             else seen ++ [x]) xs seen in
  NoDup result /\ forall x, In x result <-> In x seen \/ In x xs.
Proof.
  revert seen. induction xs as [|y r IH]; intros seen Hnd; simpl.
  - split; [exact Hnd | intros x; tauto].
  - destruct (existsb (strEq y) seen) eqn:E.
    + apply existsb_strEq in E. destruct (IH seen Hnd) as [H1 H2].
      split; [exact H1|]. intros x. rewrite H2.
      split; [tauto|]. intros [H|[<-|H]]; auto.
    + assert (Hy : ~ In y seen).
      { intros H. apply existsb_strEq in H. congruence. }
      destruct (IH (seen ++ [y])) as [H1 H2].
      { apply NoDup_app; [exact Hnd | repeat constructor; simpl; tauto|].
        intros x Hx [<-|[]]. contradiction. }
      split; [exact H1|]. intros x. rewrite H2, in_app_iff. simpl. tauto.
Qed.

(** X10. The choices of the type filter are the keyword types of the
    records, each once, the empty type left out. *)
Theorem keywordTypes_distinct_nonempty (data : list AdData) :
  NoDup (Table.keywordTypes data) /\
  forall t, In t (Table.keywordTypes data) <->
            t <> [] /\ exists item, In item data /\ keywordType item = t.
Proof.
  unfold Table.keywordTypes, Table.distinct.
  destruct (distinct_from (filter truthy (map keywordType data)) []
              (NoDup_nil _)) as [Hnd Hin].
  split; [exact Hnd|]. intros t. rewrite Hin, filter_In, in_map_iff.
  split.
  - intros [[]|[(item & <- & Hitem) Ht]].
    split; [destruct (keywordType item); [discriminate | congruence]|].
    exists item. auto.
  - intros [Hne (item & Hitem & <-)]. right. split; [exists item; auto|].
    destruct (keywordType item); [congruence | reflexivity].
Qed.

(* ================================================================== *)
(** ** DataTable: the export *)
(* ================================================================== *)

Lemma takeDigits_digitCodes (d : Decimal.uint) :
  takeDigits 10 (digitCodes d) = digitValues d.
Proof.
  induction d; simpl; try rewrite IHd; reflexivity.
Qed.

Lemma digitValues_revapp (d d' : Decimal.uint) :
  digitValues (Decimal.revapp d d') = List.rev (digitValues d) ++ digitValues d'.
Proof.
  revert d'. induction d; intros d'; simpl; try reflexivity;
    rewrite IHd; simpl; rewrite <- app_assoc; reflexivity.
Qed.

Lemma of_lu_digitValues (d : Decimal.uint) :
  Z.of_N (DecimalPos.Unsigned.of_lu d)
  = fold_right (fun x acc => x + 10 * acc) 0 (digitValues d).
Proof.
  induction d; [reflexivity|..];
    rewrite DecimalPos.Unsigned.of_lu_eqn; simpl DecimalPos.Unsigned.hd; simpl DecimalPos.Unsigned.tl;
    cbn [digitValues fold_right]; rewrite <- IHd; lia.
Qed.

Lemma digitsValue_digitValues (d : Decimal.uint) :
  digitsValue 10 (digitValues d) = Z.of_N (Pos.of_uint d).
Proof.
  rewrite DecimalPos.Unsigned.of_uint_alt, of_lu_digitValues.
  unfold Decimal.rev. rewrite digitValues_revapp, app_nil_r.
  unfold digitsValue. rewrite fold_left_rev_right.
  generalize 0. induction (digitValues d) as [|x r IH]; intros acc;
    cbn [fold_left]; [reflexivity|].
  rewrite IH. f_equal. lia.
Qed.

Lemma parseInt_digitCodes (d : Decimal.uint) :
  d <> Decimal.Nil ->
  parseInt (digitCodes d) = Some (digitsValue 10 (digitValues d)) /\
  parseInt (45%N :: digitCodes d) = Some (- digitsValue 10 (digitValues d)).
Proof.
  intros Hd. rewrite <- takeDigits_digitCodes.
  destruct d as [|d|d|d|d|d|d|d|d|d|d]; [congruence|..];
    destruct d; split; unfold parseInt; cbn -[digitsValue Z.mul];
    try reflexivity.
  all: match goal with |- Some (?s * ?x) = Some ?y => idtac end.
  all: f_equal; lia.
Qed.

Lemma parseInt_numberToString (n : Z) : parseInt (numberToString n) = Some n.
Proof.
  unfold numberToString. destruct n as [|p|p]; [reflexivity|..];
    unfold Z.to_int;
    destruct (parseInt_digitCodes (Pos.to_uint p)
                (DecimalPos.Unsigned.to_uint_nonnil p)) as [Hpos Hneg];
    rewrite digitsValue_digitValues, DecimalPos.Unsigned.of_to in Hpos, Hneg.
  - exact Hpos.
  - exact Hneg.
Qed.

Lemma digitCodes_range (d : Decimal.uint) :
  Forall (fun c => (48 <= c <= 57)%N) (digitCodes d).
Proof.
  induction d; simpl; constructor; try assumption; lia.
Qed.

(** A number is written with digits and, at most, a minus sign: no comma,
    no newline, no quote. *)
Lemma numberToString_codes (n : Z) :
  Forall (fun c => c = 45%N \/ (48 <= c <= 57)%N) (numberToString n).
Proof.
  unfold numberToString.
  destruct (Z.to_int n) as [d|d]; [|constructor; [left; reflexivity|]];
    (eapply Forall_impl; [|apply digitCodes_range]); intros c Hc; right;
    exact Hc.
Qed.

Lemma split_without (sep : N) (s : jsstring) :
  ~ In sep s -> split sep s = [s].
Proof.
  induction s as [|c r IH]; simpl; [reflexivity|].
  intros H. destruct (N.eqb_spec c sep) as [->|Hne]; [tauto|].
  rewrite IH by tauto. reflexivity.
Qed.

Lemma split_app_sep (sep : N) (p s : jsstring) :
  ~ In sep p -> split sep (p ++ sep :: s) = p :: split sep s.
Proof.
  induction p as [|c r IH]; simpl.
  - intros _. rewrite N.eqb_refl. reflexivity.
  - intros H. destruct (N.eqb_spec c sep) as [->|Hne]; [tauto|].
    rewrite IH by tauto. reflexivity.
Qed.

(** Splitting undoes joining when no part holds the separator. *)
Lemma split_join (sep : N) (parts : list jsstring) :
  parts <> [] ->
  Forall (fun p => ~ In sep p) parts ->
  split sep (join [sep] parts) = parts.
Proof.
  induction parts as [|p rest IH]; [congruence|]. intros _ Hall.
  inversion Hall as [|? ? Hp Hrest]; subst.
  destruct rest as [|q rest'].
  - simpl. apply split_without, Hp.
  - change (join [sep] (p :: q :: rest'))
      with (p ++ sep :: join [sep] (q :: rest')).
    rewrite split_app_sep by exact Hp.
    rewrite IH by (congruence || exact Hrest). reflexivity.
Qed.

Lemma In_join (c : N) (sep : jsstring) (parts : list jsstring) :
  In c (join sep parts) -> In c sep \/ exists p, In p parts /\ In c p.
Proof.
  induction parts as [|p rest IH]; [simpl; tauto|].
  destruct rest as [|q rest'].
  - simpl. intros H. right. exists p. auto.
  - change (join sep (p :: q :: rest'))
      with (p ++ sep ++ join sep (q :: rest')).
    rewrite !in_app_iff. intros [H|[H|H]].
    + right. exists p. split; [left; reflexivity | exact H].
    + left. exact H.
    + destruct (IH H) as [Hs|(p' & Hp' & Hc)]; [left; exact Hs|].
      right. exists p'. split; [right; exact Hp' | exact Hc].
Qed.

Lemma numberToString_without (c : N) (n : Z) :
  (c < 45)%N -> ~ In c (numberToString n).
Proof.
  intros Hc Hin.
  apply (proj1 (Forall_forall _ _) (numberToString_codes n)) in Hin. lia.
Qed.

Lemma quoted_without (c : N) (s : jsstring) :
  c <> 34%N -> ~ In c s -> ~ In c ([34%N] ++ s ++ [34%N]).
Proof.
  intros Hc Hs. rewrite !in_app_iff. simpl. intuition congruence.
Qed.

(** X11. A row of the export whose keyword, type, search command and
    click rate hold no comma, and whose seven numbers are integers up to
    2^53 in absolute value, splits at its commas into eleven fields, and
    the seven numbers read back through [parseInt] as they were written:
    order, views, clicks, conversions, cost, gmv and average rank. *)
Theorem export_row_round_trip (row : AdData) :
  ~ In comma (keyword row) ->
  ~ In comma (keywordType row) ->
  ~ In comma (searchCommand row) ->
  ~ In comma (clickRate row) ->
  Forall (fun n => Z.abs n <= two53)
         [order row; views row; clicks row; conversions row; cost row;
          gmv row; averageRank row] ->
  let fields := split comma (Table.exportRow row) in
  List.length fields = 11%nat /\
  map (fun k => parseIntOr0 (nth k fields [])) [0; 4; 5; 7; 8; 9; 10]%nat
  = [order row; views row; clicks row; conversions row; cost row; gmv row;
     averageRank row] /\
  map (fun k => toDouble (parseIntOr0 (nth k fields [])))
      [0; 4; 5; 7; 8; 9; 10]%nat
  = map ofInt [order row; views row; clicks row; conversions row; cost row;
               gmv row; averageRank row] /\
  nth 1 fields [] = [34%N] ++ keyword row ++ [34%N] /\
  nth 2 fields [] = [34%N] ++ keywordType row ++ [34%N] /\
  nth 3 fields [] = [34%N] ++ searchCommand row ++ [34%N] /\
  nth 6 fields [] = clickRate row.
Proof.
  intros Hk Ht Hs Hc Hsafe fields. unfold fields, Table.exportRow.
  rewrite split_join.
  - split; [reflexivity|].
    rewrite Forall_forall in Hsafe.
    split; [|split; [|repeat split]].
    + cbn [map nth]. unfold parseIntOr0.
      rewrite !parseInt_numberToString. reflexivity.
    + cbn [map nth]. unfold parseIntOr0.
      rewrite !parseInt_numberToString.
      rewrite !roundToDouble_int by (apply Hsafe; simpl; tauto).
      reflexivity.
  - discriminate.
  - assert (Hnum : forall n, ~ In comma (numberToString n))
      by (intros n; apply numberToString_without; reflexivity).
    assert (Hq : forall s, ~ In comma s -> ~ In comma ([34%N] ++ s ++ [34%N]))
      by (intros s; apply quoted_without; discriminate).
    repeat constructor; auto.
Qed.

(** X12. When no keyword, type, search command or click rate of the rows
    on display holds a newline, the export has one line for the column
    titles and then one line per row, in the order of the rows. *)
Theorem export_one_line_per_row (rows : list AdData) :
  Forall (fun row => ~ In newline (keyword row) /\
                     ~ In newline (keywordType row) /\
                     ~ In newline (searchCommand row) /\
                     ~ In newline (clickRate row)) rows ->
  split newline (Table.csvContent rows)
  = join [comma] Table.exportHeaders :: map Table.exportRow rows.
Proof.
  intros Hrows. unfold Table.csvContent. apply split_join; [discriminate|].
  constructor.
  - intros Hin.
    assert (E : existsb (N.eqb newline) (join [comma] Table.exportHeaders)
                = false) by reflexivity.
    apply Bool.not_true_iff_false in E. apply E.
    apply existsb_exists. exists newline. split; [exact Hin|].
    apply N.eqb_refl.
  - apply Forall_forall. intros line Hline.
    apply in_map_iff in Hline as (row & <- & Hrow).
    apply (proj1 (Forall_forall _ _) Hrows) in Hrow
      as (Hk & Ht & Hs & Hc).
    intros Hin. apply In_join in Hin as [[E|[]]|(p & Hp & Hin)];
      [discriminate|].
    assert (Hnum : forall n, ~ In newline (numberToString n))
      by (intros n; apply numberToString_without; reflexivity).
    assert (Hq : forall s, ~ In newline s ->
                           ~ In newline ([34%N] ++ s ++ [34%N]))
      by (intros s; apply quoted_without; discriminate).
    simpl in Hp.
    repeat (destruct Hp as [<-|Hp];
            [first [ exact (Hnum _ Hin) | exact (Hq _ Hk Hin)
                   | exact (Hq _ Ht Hin) | exact (Hq _ Hs Hin)
                   | exact (Hc Hin) ]|]).
    destruct Hp.
Qed.

(* ================================================================== *)
(** ** DataCharts *)
(* ================================================================== *)

Lemma Array_slice_prefix {A : Type} (n : Z) (xs : list A) :
  0 <= n -> Array_slice 0 n xs = firstn (Z.to_nat n) xs.
Proof.
  intros Hn. unfold Array_slice, relativeIndex.
  destruct (Z.ltb_spec n 0); [lia|]. simpl Z.ltb. cbv iota.
  rewrite (Z.min_l 0) by lia. rewrite Z.sub_0_r. simpl skipn.
  destruct (Z.le_ge_cases n (Z.of_nat (List.length xs))).
  - rewrite (Z.min_l n) by lia. reflexivity.
  - rewrite (Z.min_r n) by lia. rewrite !firstn_all2 by lia. reflexivity.
Qed.


Lemma Forall2_map_self {A B : Type} (P : A -> B -> Prop) (f : A -> B)
  (l : list A) :
  Forall (fun x => P x (f x)) l -> Forall2 P l (map f l).
Proof.
  induction 1; simpl; constructor; assumption.
Qed.

Section ChartFacts.

Variable Papa_parse : jsstring -> completion (option (list jsstring)).


(** X14. The points of the cost chart are, in order, the first twenty
    records of the data with positive views and positive cost: each point
    has the shortened keyword, the cost, the views and the clicks of its
    record, and its efficiency is clicks / views * 100, never the fallback
    0 of the code.  For clicks that are not negative and clicks and views
    up to 2^53 the efficiency is finite, within a relative error of 2^-51
    of the exact percentage. *)
Theorem costPerformanceData_points (r : ParsedAdData) :
  let items :=
    firstn 20 (filter (fun item => (0 <? views item) && (0 <? cost item))
                      (data r)) in
  let points := Charts.costPerformanceData r in
  (List.length points <= 20)%nat /\
  Forall2 (fun item p =>
             In item (data r) /\
             0 < views item /\ 0 < cost item /\
             Charts.cpKeyword p = Charts.shorten 15 (keyword item) /\
             Charts.cpCost p = cost item /\
             Charts.cpViews p = views item /\
             Charts.cpClicks p = clicks item /\
             Charts.cpEfficiency p
             = multiply (divide (toDouble (clicks item))
                                (toDouble (views item))) (ofInt 100) /\
             (0 <= clicks item <= two53 -> views item <= two53 ->
              closeTo (Charts.cpEfficiency p)
                      (exactPercent (clicks item) (views item))))
          items points.
Proof.
  cbv zeta. unfold Charts.costPerformanceData.
  rewrite Array_slice_prefix by lia. change (Z.to_nat 20) with 20%nat.
  assert (Hfilter : filter (fun item => (views item >? 0) && (cost item >? 0))
                           (data r)
                    = filter (fun item => (0 <? views item) && (0 <? cost item))
                             (data r))
    by (apply filter_ext; intros item; rewrite !Z.gtb_ltb; reflexivity).
  rewrite Hfilter. split.
  - rewrite length_map, length_firstn. lia.
  - apply Forall2_map_self, Forall_forall. intros item Hitem.
    apply In_firstn, filter_In in Hitem as [Hin Hpos].
    apply andb_true_iff in Hpos as [Hv Hc].
    apply Z.ltb_lt in Hv, Hc.
    cbn [Charts.cpKeyword Charts.cpCost Charts.cpViews Charts.cpClicks
         Charts.cpEfficiency].
    assert (Hgt : (views item >? 0) = true) by (rewrite Z.gtb_ltb; lia).
    rewrite Hgt. repeat (split; [auto; fail|]).
    intros Hclicks Hviews.
    rewrite !roundToDouble_int by lia.
    destruct (percent_close (clicks item) (views item) Hclicks
                ltac:(lia)) as (q & -> & Hclose).
    exact Hclose.
Qed.


End ChartFacts.

(* ================================================================== *)
(** ** FileUpload *)
(* ================================================================== *)

(** X16. A chosen file is handed on exactly when it is the first file of
    the selection, its type holds "csv" or its name ends in ".csv", and
    its size is at most 10 * 1024 * 1024 bytes; a file of exactly that
    size passes. *)
Theorem chosen_file_accepted_iff (file : Upload.File)
  (others : list Upload.File) (accepted : Upload.File) :
  Upload.handleFileSelect (file :: others) = Upload.Selected accepted <->
  accepted = file /\
  (includes (lit "csv") (Upload.type file) = true \/
   endsWith (lit ".csv") (Upload.name file) = true) /\
  Upload.size file <= 10485760.
Proof.
  unfold Upload.handleFileSelect, Upload.sizeLimit.
  change (10 * 1024 * 1024) with 10485760.
  set (a := includes (lit "csv") (Upload.type file)).
  set (b := endsWith (lit ".csv") (Upload.name file)).
  destruct (negb a && negb b) eqn:Hcsv.
  - apply andb_true_iff in Hcsv as [Ha Hb].
    apply negb_true_iff in Ha, Hb. split; [discriminate|].
    intros (_ & [H|H] & _); congruence.
  - assert (Hor : a = true \/ b = true).
    { destruct a, b; auto; discriminate. }
    destruct (Z.gtb_spec (Upload.size file) 10485760) as [Hbig|Hfit].
    + split; [discriminate|]. intros (_ & _ & Hs). lia.
    + split.
      * intros H. injection H as <-. auto.
      * intros (-> & _ & _). reflexivity.
Qed.

(** X17. A dropped file is handed on only if it is the first of the
    dropped files whose type is "text/csv" or whose name ends in ".csv",
    and its size is at most 10 * 1024 * 1024 bytes.  When that first file is
    larger, the drop is refused, whatever files come after it. *)
Theorem dropped_file_first_csv (files before after : list Upload.File)
  (csvFile : Upload.File) :
  let isCsv file := strEq (Upload.type file) (lit "text/csv")
                    || endsWith (lit ".csv") (Upload.name file) in
  files = before ++ csvFile :: after ->
  forallb (fun file => negb (isCsv file)) before = true ->
  isCsv csvFile = true ->
  (Upload.size csvFile <= 10485760 ->
     Upload.handleDrop files = Upload.Selected csvFile) /\
  (10485760 < Upload.size csvFile ->
     Upload.handleDrop files
     = Upload.Rejected "File size must be less than 10MB").
Proof.
  intros isCsv -> Hbefore Hcsv. unfold Upload.handleDrop, Upload.sizeLimit.
  change (10 * 1024 * 1024) with 10485760.
  assert (Hfind : find isCsv (before ++ csvFile :: after) = Some csvFile).
  { clear -Hbefore Hcsv. induction before as [|f r IH]; simpl.
    - rewrite Hcsv. reflexivity.
    - simpl in Hbefore. apply andb_true_iff in Hbefore as [Hf Hr].
      apply negb_true_iff in Hf. rewrite Hf. apply IH, Hr. }
  fold isCsv. rewrite Hfind.
  destruct (Z.gtb_spec (Upload.size csvFile) 10485760); split; intros;
    try lia; reflexivity.
Qed.

(** X18. Dropping is the stricter of the two ways in: a single file that a
    drop hands on is handed on as well when it is chosen through the file
    dialog. *)
Theorem dropped_then_chosen (file accepted : Upload.File) :
  Upload.handleDrop [file] = Upload.Selected accepted ->
  Upload.handleFileSelect [file] = Upload.Selected accepted.
Proof.
  unfold Upload.handleDrop, Upload.handleFileSelect. simpl find.
  destruct (strEq (Upload.type file) (lit "text/csv")) eqn:Ht.
  - apply strEq_true in Ht. rewrite Ht. simpl orb.
    change (includes (lit "csv") (lit "text/csv")) with true.
    cbn [negb andb]. auto.
  - simpl orb.
    destruct (endsWith (lit ".csv") (Upload.name file)); [|discriminate].
    rewrite andb_false_r. auto.
Qed.

(* ================================================================== *)
(** ** Home *)
(* ================================================================== *)

Section HomeFacts.

Variable Papa_parse : jsstring -> completion (option (list jsstring)).

(** X19. While a file is being read the dashboard is hidden.  Once
    [handleFileSelect] is through, loading is over and the page is in one
    of two states: the file parsed, its report is the one on display and no
    error is set; or an error message is set and no report is kept, not
    even the report of an earlier file. *)
Theorem upload_ends_with_report_or_error (st : Home.State)
  (file : Upload.File) (read : Home.readResult) :
  let st' := Home.handleFileSelect Papa_parse st file read in
  Home.dashboardShown (Home.startFileSelect st file) = false /\
  Home.isLoading st' = false /\
  Home.selectedFile st' = Some file /\
  ((exists text parsed,
      read = Home.Text text /\
      parseCSVData Papa_parse text = Some parsed /\
      Home.parsedData st' = Some parsed /\
      Home.error st' = None /\
      Home.dashboardShown st' = true) \/
   (exists message,
      Home.error st' = Some message /\
      Home.parsedData st' = None /\
      Home.dashboardShown st' = false)).
Proof.
  cbv zeta. unfold Home.handleFileSelect, Home.finishFileSelect.
  split; [unfold Home.dashboardShown; simpl;
          destruct (Home.parsedData st); reflexivity|].
  destruct read as [text|message|].
  - destruct (parseCSVData Papa_parse text) as [parsed|] eqn:Hparse.
    + split; [reflexivity|]. split; [reflexivity|]. left.
      exists text, parsed. repeat split; reflexivity || exact Hparse.
    + split; [reflexivity|]. split; [reflexivity|]. right.
      eexists. repeat split.
  - split; [reflexivity|]. split; [reflexivity|]. right.
    eexists. repeat split.
  - split; [reflexivity|]. split; [reflexivity|]. right.
    eexists. repeat split.
Qed.

(** X20. Uploading a text in which no line holds the column-header marker
    ends with the message "Failed to parse CSV file. Please check the file
    format." and without a report, whatever was on display before. *)
Theorem upload_without_marker (st : Home.State) (file : Upload.File)
  (text : jsstring) :
  existsb (includes marker) (split newline text) = false ->
  let st' := Home.handleFileSelect Papa_parse st file (Home.Text text) in
  Home.error st'
    = Some "Failed to parse CSV file. Please check the file format."%string /\
  Home.parsedData st' = None /\
  Home.dashboardShown st' = false.
Proof.
  intros Hmissing.
  assert (Hnull : parseCSVData Papa_parse text = None).
  { rewrite parseCSVData_unfold. cbv zeta. unfold findDataStartIndex.
    rewrite scanFrom_missing; [reflexivity|].
    apply existsb_filter_false, Hmissing. }
  cbv zeta. unfold Home.handleFileSelect, Home.finishFileSelect.
  rewrite Hnull. repeat split.
Qed.

End HomeFacts.

(* ================================================================== *)
(** ** More on the parser and the statistics *)
(* ================================================================== *)

Section MoreParserFacts.

Variable Papa_parse : jsstring -> completion (option (list jsstring)).

Lemma parseRow_origin (line : jsstring) (records : list AdData) :
  parseRow Papa_parse line = Normal records ->
  records = [] \/
  exists row,
    Papa_parse line = Normal (Some row) /\
    (24 <= List.length row)%nat /\
    records = [toAdData row].
Proof.
  unfold parseRow. destruct (negb (truthy (trim line))).
  - intros H. injection H as <-. left. reflexivity.
  - destruct (Papa_parse line) as [[row|]|e]; cbn [bind];
      [|intros H; injection H as <-; left; reflexivity | discriminate].
    destruct (Nat.leb_spec 24 (List.length row)) as [Hlen|Hlen];
      intros H; injection H as <-; [right | left; reflexivity].
    exists row. auto.
Qed.

(** X21. Every record of the row loop is built from the fields of one of
    the data lines, a line that the field splitter cut into at least 24
    fields; there are never more records than data lines. *)
Theorem records_come_from_long_rows (dataLines : list jsstring)
  (records : list AdData) :
  parseRows Papa_parse dataLines = Normal records ->
  Forall (fun record =>
            exists line row,
              In line dataLines /\
              Papa_parse line = Normal (Some row) /\
              (24 <= List.length row)%nat /\
              record = toAdData row) records /\
  (List.length records <= List.length dataLines)%nat.
Proof.
  revert records. induction dataLines as [|line rest IH]; intros records.
  - simpl. intros H. injection H as <-. split; [constructor | reflexivity].
  - simpl. destruct (parseRow Papa_parse line) as [here|e] eqn:Hhere;
      cbn [bind]; [|discriminate].
    destruct (parseRows Papa_parse rest) as [later|e]; cbn [bind];
      [|discriminate].
    intros H. injection H as <-.
    destruct (IH later eq_refl) as [Hall Hlen].
    assert (Hlater : Forall (fun record =>
              exists line0 row,
                In line0 (line :: rest) /\
                Papa_parse line0 = Normal (Some row) /\
                (24 <= List.length row)%nat /\
                record = toAdData row) later).
    { eapply Forall_impl; [|exact Hall].
      intros record (l & row & Hin & Hrest). exists l, row.
      split; [right; exact Hin | exact Hrest]. }
    destruct (parseRow_origin line here Hhere)
      as [->|(row & Hp & Hrow & ->)].
    + split; [exact Hlater | simpl; lia].
    + split; [|simpl; lia]. constructor; [|exact Hlater].
      exists line, row. split; [left; reflexivity | auto].
Qed.

Lemma parseRows_throws (dataLines : list jsstring) (line : jsstring)
  (e : exn) :
  In line dataLines ->
  truthy (trim line) = true ->
  Papa_parse line = Throw e ->
  exists e', parseRows Papa_parse dataLines = Throw e'.
Proof.
  intros Hin Hnb Hthrow. induction dataLines as [|l rest IH]; [destruct Hin|].
  simpl. destruct Hin as [->|Hin].
  - unfold parseRow. rewrite Hnb, Hthrow. exists e. reflexivity.
  - destruct (parseRow Papa_parse l) as [here|e0]; cbn [bind];
      [|exists e0; reflexivity].
    destruct (IH Hin) as (e' & ->). exists e'. reflexivity.
Qed.

Lemma parseRows_throw_origin (dataLines : list jsstring) (e : exn) :
  parseRows Papa_parse dataLines = Throw e ->
  exists line, In line dataLines /\ Papa_parse line = Throw e.
Proof.
  induction dataLines as [|l rest IH]; simpl; [discriminate|].
  destruct (parseRow Papa_parse l) as [here|e0] eqn:Hrow; cbn [bind].
  - destruct (parseRows Papa_parse rest) as [later|e1]; cbn [bind];
      [discriminate|].
    intros H. injection H as ->.
    destruct (IH eq_refl) as (line & Hin & Hthrow).
    exists line. split; [right; exact Hin | exact Hthrow].
  - intros H. injection H as ->. exists l. split; [left; reflexivity|].
    unfold parseRow in Hrow.
    destruct (negb (truthy (trim l))); [discriminate|].
    destruct (Papa_parse l) as [[row|]|e1]; cbn [bind] in Hrow.
    + destruct (24 <=? List.length row)%nat; discriminate.
    + discriminate.
    + congruence.
Qed.

(** X22. Once the column-header line is found, the parse returns null in
    two cases only: the field splitter raises an exception on a line of the
    data section, or the data section yields more records than a call can
    take as arguments.  Short and unreadable rows never lose the file. *)
Theorem null_after_marker_iff (maxArguments : nat) (csvText : jsstring)
  (pre post : list jsstring) (m : jsstring) :
  nonBlankLines csvText = pre ++ m :: post ->
  existsb (includes marker) pre = false ->
  includes marker m = true ->
  (Engine.parseCSVData maxArguments Papa_parse csvText = None <->
   (exists line e, In line post /\ Papa_parse line = Throw e) \/
   (exists records,
      parseRows Papa_parse post = Normal records /\
      (maxArguments < List.length records)%nat)).
Proof.
  intros Hl Hpre Hm.
  destruct (data_section_after_marker Papa_parse csvText pre post m
              Hl Hpre Hm) as (Hstart & Hslice & _).
  unfold Engine.parseCSVData.
  rewrite Engine_parseCSVData_body_unfold. cbv zeta.
  rewrite Hslice.
  destruct (Z.eqb_spec (findDataStartIndex (nonBlankLines csvText)) (-1))
    as [Hbad|_]; [rewrite Hstart in Hbad; lia|].
  split.
  - destruct (parseRows Papa_parse post) as [records|e] eqn:Hrows.
    + destruct (Nat.ltb_spec maxArguments (List.length records)) as [Hn|Hn];
        [|discriminate].
      intros _. right. exists records. split; [reflexivity | exact Hn].
    + intros _. left.
      destruct (parseRows_throw_origin post e Hrows) as (line & Hin & Hthrow).
      exists line, e. auto.
  - intros [(line & e & Hin & Hthrow)|(records & Hrows & Hn)].
    + assert (Hnb : truthy (trim line) = true).
      { assert (H : In line (nonBlankLines csvText))
          by (rewrite Hl; apply in_or_app; right; right; exact Hin).
        unfold nonBlankLines in H. apply filter_In in H. apply H. }
      destruct (parseRows_throws post line e Hin Hnb Hthrow) as (e' & ->).
      reflexivity.
    + rewrite Hrows.
      destruct (Nat.ltb_spec maxArguments (List.length records));
        [reflexivity | lia].
Qed.

(** X23. A blank line, wherever it stands in the text, changes nothing of
    the result: the parse of the lines with it is the parse of the lines
    without it. *)
Theorem blank_line_ignored (pre post : list jsstring) (blankLine : jsstring) :
  pre ++ post <> [] ->
  Forall (fun line => ~ In newline line) (pre ++ blankLine :: post) ->
  forallb isWhiteSpace blankLine = true ->
  parseCSVData Papa_parse (join [newline] (pre ++ blankLine :: post))
  = parseCSVData Papa_parse (join [newline] (pre ++ post)).
Proof.
  intros Hne Hall Hblank.
  assert (Hall' : Forall (fun line => ~ In newline line) (pre ++ post)).
  { apply Forall_app in Hall as [H1 H2]. inversion H2; subst.
    apply Forall_app. auto. }
  assert (Hlines : nonBlankLines (join [newline] (pre ++ blankLine :: post))
                   = nonBlankLines (join [newline] (pre ++ post))).
  { unfold nonBlankLines. rewrite !split_join; try assumption;
      [|destruct pre; discriminate].
    rewrite !filter_app. simpl. rewrite truthy_trim, Hblank. reflexivity. }
  rewrite !parseCSVData_unfold. cbv zeta. rewrite Hlines. reflexivity.
Qed.

(** X24. A header value ends at the next comma: in a header line made of a
    label, a comma, a value, a comma and more, the field read is the value
    alone, and what follows the second comma is dropped.  (The header reads
    username, store name, seller id, ad name, product id, creation time and
    time range this way, from lines 1, 2, 3, 4, 5, 7 and 8.) *)
Theorem header_value_cut_at_comma (lines : list jsstring) (i : nat)
  (label value rest : jsstring) :
  nth_error lines i = Some (label ++ comma :: value ++ comma :: rest) ->
  ~ In comma label ->
  ~ In comma value ->
  secondField lines i = value /\
  (i = 1%nat -> username (parseHeader lines) = value) /\
  (i = 2%nat -> storeName (parseHeader lines) = value) /\
  (i = 3%nat -> sellerId (parseHeader lines) = value) /\
  (i = 4%nat -> adName (parseHeader lines) = value) /\
  (i = 5%nat -> productId (parseHeader lines) = value) /\
  (i = 7%nat -> reportCreationTime (parseHeader lines) = value) /\
  (i = 8%nat -> timeRange (parseHeader lines) = value).
Proof.
  intros Hline Hlabel Hvalue.
  assert (H : secondField lines i = value).
  { unfold secondField. rewrite Hline.
    rewrite !split_app_sep by assumption. reflexivity. }
  split; [exact H|]. repeat split; intros ->; exact H.
Qed.

End MoreParserFacts.

(* ================================================================== *)
(** ** More on the statistics *)
(* ================================================================== *)



Lemma sort_already_sorted (l : list AdData) :
  StronglySorted viewsDesc l -> sort byViewsDesc l = l.
Proof.
  induction 1 as [|x r Hr IH Hx]; [reflexivity|].
  simpl. rewrite IH. destruct r as [|y r']; [reflexivity|].
  simpl. inversion Hx as [|? ? Hy _]; subst. unfold viewsDesc in Hy.
  unfold byViewsDesc. destruct (Z.leb_spec (views y - views x) 0);
    [reflexivity | lia].
Qed.

Lemma sumOf_sort (f : AdData -> Z) (l : list AdData) :
  safeSum f l -> sumOf f (sort byViewsDesc l) = sumOf f l.
Proof.
  intros Hsafe. rewrite !sumOf_exact.
  - f_equal. apply total_perm, Permutation_map, sort_perm.
  - exact Hsafe.
  - eapply safeSum_perm; [apply Permutation_sym, sort_perm | exact Hsafe].
Qed.

(** X26. When, for each of views, clicks, cost, gmv and conversions, the
    values of the records add up in absolute value to 2^53 at most,
    computing the statistics again from the records as a result returns
    them gives the same records in the same order and the same statistics:
    the in-place sort changes the order once and no more, and the sums do
    not depend on the order. *)
Theorem statistics_recomputed_unchanged (records : list AdData) :
  safeSum views records ->
  safeSum clicks records ->
  safeSum cost records ->
  safeSum gmv records ->
  safeSum conversions records ->
  calculateStatistics (fst (calculateStatistics records))
  = calculateStatistics records.
Proof.
  intros Hv Hc Ht Hg Hk.
  unfold calculateStatistics. cbn [fst].
  rewrite (sort_already_sorted (sort byViewsDesc records))
    by apply sort_viewsDesc.
  rewrite !sumOf_sort by assumption. reflexivity.
Qed.



(** X28. For each of views, clicks, cost and gmv, when the values of the
    records are integers up to 2^53 in absolute value and some record has a
    strictly positive value, the reported minimum and maximum are such
    integers, the minimum is positive and it is not above the maximum. *)
Theorem minimum_not_above_maximum (records : list AdData) (m : metric) :
  Forall (fun item => Z.abs (metricOf m item) <= two53) records ->
  Exists (fun item => 0 < metricOf m item) records ->
  exists lo hi,
    extremeOf m (minValues (snd (calculateStatistics records))) = toDouble lo /\
    extremeOf m (maxValues (snd (calculateStatistics records))) = toDouble hi /\
    toDouble lo = ofInt lo /\
    toDouble hi = ofInt hi /\
    0 < lo <= hi /\ hi <= two53.
Proof.
  intros Hsafe Hex.
  assert (Hne : records <> []) by (intros ->; inversion Hex).
  destruct (maxValues_nonempty records m Hne) as (top & Htop & Hmax & Hub).
  pose proof (sort_perm byViewsDesc records) as Hperm.
  destruct (proj2 (minOrZero_nonZero (metricOf m)
                     (sort byViewsDesc records)))
    as (least & Hin & Hpos & Hmin & _).
  { eapply Permutation_Exists; [apply Permutation_sym, Hperm | exact Hex]. }
  rewrite Forall_forall in Hsafe.
  assert (Hle : metricOf m least <= metricOf m top).
  { apply (proj1 (Forall_forall _ _) Hub).
    apply (sort_In byViewsDesc). exact Hin. }
  assert (Hlo : toDouble (metricOf m least) = ofInt (metricOf m least)).
  { apply roundToDouble_int, Hsafe, (sort_In byViewsDesc), Hin. }
  assert (Hhi : toDouble (metricOf m top) = ofInt (metricOf m top)).
  { apply roundToDouble_int, Hsafe, Htop. }
  exists (metricOf m least), (metricOf m top).
  split; [rewrite Hlo; destruct m; exact Hmin|].
  split; [rewrite Hhi; exact Hmax|].
  split; [exact Hlo|]. split; [exact Hhi|]. split; [lia|].
  specialize (Hsafe top Htop). lia.
Qed.

(* ================================================================== *)
(** ** DataCharts: the keyword-type pie *)
(* ================================================================== *)



Section PieFacts.

Variable inherited : jsstring -> bool.










End PieFacts.

(* ================================================================== *)
(** ** The properties of the components on the sample data *)
(* ================================================================== *)

Ltac absent :=
  let H := fresh in
  intros H; vm_compute in H;
  repeat (destruct H as [H|H]; [discriminate H|]); exact H.

Lemma totalPages_covers_witness : Table.totalPages 60 25 = ofInt 3.
Proof.
  destruct (totalPages_covers 60 25 ltac:(lia) ltac:(lia))
    as (t & Ht & _ & Hb).
  replace 3 with t by lia. exact Ht.
Defined.

Lemma pages_partition_rows_witness :
  Table.totalPages 7 3 = ofInt 3 /\
  concat (map (fun i => Table.paginatedData Sample2.sevenRows
                          (Z.of_nat i + 1) 3) [0; 1; 2]%nat)
  = Sample2.sevenRows.
Proof.
  split; [reflexivity|].
  exact (pages_partition_rows Sample2.sevenRows 3 3 ltac:(lia) eq_refl).
Defined.

Lemma page_sizes_witness :
  List.length (Table.paginatedData Sample2.sevenRows 1 3) = 3%nat /\
  List.length (Table.paginatedData Sample2.sevenRows 3 3) = 1%nat /\
  Table.paginatedData Sample2.sevenRows 4 3 = [].
Proof.
  split; [|split].
  - apply Nat2Z.inj.
    apply (proj1 (page_sizes Sample2.sevenRows 1 3 3
                    ltac:(lia) ltac:(lia) eq_refl)). lia.
  - apply Nat2Z.inj.
    apply (proj1 (proj2 (page_sizes Sample2.sevenRows 3 3 3
                           ltac:(lia) ltac:(lia) eq_refl))). reflexivity.
  - apply (proj2 (proj2 (page_sizes Sample2.sevenRows 4 3 3
                           ltac:(lia) ltac:(lia) eq_refl))). lia.
Defined.

Lemma showing_range_matches_page_witness :
  Table.showingFrom 3 3 = 7 /\ Table.showingTo 7 3 3 = 7 /\
  Table.showingTo 7 3 3 - Table.showingFrom 3 3 + 1
  = Z.of_nat (List.length (Table.paginatedData Sample2.sevenRows 3 3)).
Proof.
  split; [reflexivity|]. split; [reflexivity|].
  apply (showing_range_matches_page Sample2.sevenRows 3 3 3
           ltac:(lia) eq_refl ltac:(lia)).
Defined.

Lemma page_navigation_in_range_witness :
  Table.pageNumbers 8 7 = [4; 5; 6; 7; 8] /\
  In 7 (Table.pageNumbers 8 7) /\
  Forall (fun p => 1 <= p <= 8) (Table.pageNumbers 8 7) /\
  Table.previousPage 7 = 6 /\ Table.nextPage 8 7 = 8.
Proof.
  destruct (page_navigation_in_range 8 7 ltac:(lia))
    as (_ & Hall & Hin & _ & _ & _ & _ & _ & Hprev & Hnext).
  split; [reflexivity|]. split; [exact Hin|]. split; [exact Hall|].
  split; [apply Hprev; lia | apply Hnext; lia].
Defined.


Lemma no_filter_shows_every_record_witness :
  Permutation
    (Table.filteredAndSortedData (fun s => s) (fun _ => NaN) (fun _ _ => 0)
       Sample2.records [] (lit "all") Table.K_keyword Table.desc)
    Sample2.records.
Proof.
  apply (no_filter_shows_every_record (fun s => s) (fun _ => NaN)
           (fun _ _ => 0)).
  reflexivity.
Defined.

Lemma export_row_round_trip_witness :
  nth 1 (split comma (Table.exportRow Sample.bootsRecord)) []
  = [34%N] ++ lit "boots" ++ [34%N] /\
  map (fun k => parseIntOr0
                  (nth k (split comma (Table.exportRow Sample.bootsRecord)) []))
      [0; 4; 5; 7; 8; 9; 10]%nat
  = [2; 100; 10; 2; 70; 900; 3].
Proof.
  split; [vm_compute; reflexivity|].
  apply (export_row_round_trip Sample.bootsRecord); try absent.
  repeat constructor; vm_compute; discriminate.
Defined.

Lemma export_one_line_per_row_witness :
  split newline (Table.csvContent [Sample.shoesRecord; Sample.bootsRecord])
  = [ lit "Order,Keyword,Type,Search Command,Views,Clicks,Click Rate,Conversions,Cost,GMV,Avg Rank";
      Table.exportRow Sample.shoesRecord;
      Table.exportRow Sample.bootsRecord ].
Proof.
  apply (export_one_line_per_row [Sample.shoesRecord; Sample.bootsRecord]).
  repeat constructor; absent.
Defined.



Lemma chosen_file_accepted_iff_witness :
  Upload.handleFileSelect [Sample2.fullReport]
  = Upload.Selected Sample2.fullReport.
Proof.
  apply (proj2 (chosen_file_accepted_iff Sample2.fullReport []
                  Sample2.fullReport)).
  split; [reflexivity|]. split; [left; reflexivity|].
  vm_compute. discriminate.
Defined.

Lemma dropped_file_first_csv_witness :
  Upload.handleDrop [Sample2.notes; Sample2.bigReport; Sample2.fullReport]
  = Upload.Rejected "File size must be less than 10MB" /\
  Upload.handleDrop [Sample2.notes; Sample2.fullReport; Sample2.bigReport]
  = Upload.Selected Sample2.fullReport.
Proof.
  split.
  - apply (proj2 (dropped_file_first_csv
                    [Sample2.notes; Sample2.bigReport; Sample2.fullReport]
                    [Sample2.notes] [Sample2.fullReport] Sample2.bigReport
                    eq_refl eq_refl eq_refl)).
    reflexivity.
  - apply (proj1 (dropped_file_first_csv
                    [Sample2.notes; Sample2.fullReport; Sample2.bigReport]
                    [Sample2.notes] [Sample2.bigReport] Sample2.fullReport
                    eq_refl eq_refl eq_refl)).
    vm_compute. discriminate.
Defined.

Lemma dropped_then_chosen_witness :
  Upload.handleDrop [Sample2.fullReport] = Upload.Selected Sample2.fullReport /\
  Upload.handleFileSelect [Sample2.fullReport]
  = Upload.Selected Sample2.fullReport.
Proof.
  split; [reflexivity|].
  apply (dropped_then_chosen Sample2.fullReport Sample2.fullReport).
  reflexivity.
Defined.

Lemma upload_without_marker_witness :
  Home.error
    (Home.handleFileSelect plainSplit Home.initial Sample2.fullReport
       (Home.Text (Sample.unlines Sample.headerLines)))
  = Some "Failed to parse CSV file. Please check the file format."%string.
Proof.
  apply (upload_without_marker plainSplit Home.initial Sample2.fullReport
           (Sample.unlines Sample.headerLines)).
  vm_compute. reflexivity.
Defined.

Lemma records_come_from_long_rows_witness :
  parseRows plainSplit [Sample.shoes; Sample.hat; Sample.boots]
  = Normal [Sample.shoesRecord; Sample.bootsRecord] /\
  (List.length [Sample.shoesRecord; Sample.bootsRecord]
   <= List.length [Sample.shoes; Sample.hat; Sample.boots])%nat.
Proof.
  split; [vm_compute; reflexivity|].
  apply (records_come_from_long_rows plainSplit
           [Sample.shoes; Sample.hat; Sample.boots]
           [Sample.shoesRecord; Sample.bootsRecord]).
  vm_compute. reflexivity.
Defined.

Lemma null_after_marker_iff_witness :
  parseRows plainSplit [Sample.shoes; Sample.hat; Sample.boots]
    = Normal [Sample.shoesRecord; Sample.bootsRecord] /\
  Engine.parseCSVData 1 plainSplit
    (Sample.report [Sample.shoes; Sample.hat; Sample.boots]) = None /\
  Engine.parseCSVData 2 plainSplit
    (Sample.report [Sample.shoes; Sample.hat; Sample.boots]) <> None.
Proof.
  assert (Hrows : parseRows plainSplit [Sample.shoes; Sample.hat; Sample.boots]
                  = Normal [Sample.shoesRecord; Sample.bootsRecord])
    by (vm_compute; reflexivity).
  split; [exact Hrows|]. split.
  - apply (proj2 (null_after_marker_iff plainSplit 1
                    (Sample.report [Sample.shoes; Sample.hat; Sample.boots])
                    Sample.headerLines
                    [Sample.shoes; Sample.hat; Sample.boots]
                    Sample.columns eq_refl eq_refl eq_refl)).
    right. exists [Sample.shoesRecord; Sample.bootsRecord].
    split; [exact Hrows | simpl; lia].
  - vm_compute. discriminate.
Defined.

Lemma blank_line_ignored_witness :
  parseCSVData plainSplit
    (join [newline] ([Sample.columns] ++ lit "   " :: [Sample.shoes]))
  = parseCSVData plainSplit
      (join [newline] ([Sample.columns] ++ [Sample.shoes])).
Proof.
  apply (blank_line_ignored plainSplit [Sample.columns] [Sample.shoes]
           (lit "   ")).
  - discriminate.
  - repeat constructor; absent.
  - reflexivity.
Defined.

Lemma header_value_cut_at_comma_witness :
  username (parseHeader [lit "Report"; lit "User,alice,admin"]) = lit "alice".
Proof.
  apply (proj1 (proj2 (header_value_cut_at_comma
                         [lit "Report"; lit "User,alice,admin"] 1
                         (lit "User") (lit "alice") (lit "admin")
                         eq_refl ltac:(absent) ltac:(absent)))).
  reflexivity.
Defined.

Lemma minimum_not_above_maximum_witness :
  exists lo hi,
    extremeOf Views (minValues (snd (calculateStatistics Sample2.records)))
      = ofInt lo /\
    extremeOf Views (maxValues (snd (calculateStatistics Sample2.records)))
      = ofInt hi /\
    0 < lo <= hi.
Proof.
  destruct (minimum_not_above_maximum Sample2.records Views)
    as (lo & hi & Hmin & Hmax & Hlo & Hhi & Hle & _).
  - repeat constructor; vm_compute; discriminate.
  - apply Exists_cons_hd. vm_compute. reflexivity.
  - exists lo, hi. rewrite Hmin, Hmax. auto.
Defined.

Lemma statistics_recomputed_unchanged_witness :
  map views (fst (calculateStatistics Sample2.records)) = [100; 10; -2] /\
  calculateStatistics (fst (calculateStatistics Sample2.records))
  = calculateStatistics Sample2.records.
Proof.
  split; [vm_compute; reflexivity|].
  apply (statistics_recomputed_unchanged Sample2.records);
    vm_compute; discriminate.
Defined.

Lemma costPerformanceData_points_witness :
  exists r,
    parseCSVData plainSplit (Sample.report [Sample.shoes; Sample.boots])
      = Some r /\
    map Charts.cpEfficiency (Charts.costPerformanceData r)
      = [ofInt 10; ofInt 10] /\
    (List.length (Charts.costPerformanceData r) <= 20)%nat.
Proof.
  eexists. split; [vm_compute; reflexivity|].
  split; [vm_compute; reflexivity|].
  apply (costPerformanceData_points _).
Defined.

(* ================================================================== *)
(** ** Reading the numeric fields *)
(* ================================================================== *)

Lemma digitValue_decimal_none (c : N) :
  ~ (48 <= c <= 57)%N -> digitValue 10 c = None.
Proof.
  intros H. unfold digitValue. cbv zeta.
  destruct ((48 <=? Z.of_N c) && (Z.of_N c <=? 57)) eqn:E; [|reflexivity].
  apply andb_true_iff in E as [E1 E2]. lia.
Qed.

Lemma takeDigits_digitCodes_then (d : Decimal.uint) (c : N)
  (rest : jsstring) :
  digitValue 10 c = None ->
  takeDigits 10 (digitCodes d ++ c :: rest) = digitValues d.
Proof.
  intros Hc. induction d; simpl; try rewrite IHd; try reflexivity.
  rewrite Hc. reflexivity.
Qed.

Lemma parseInt_zero_then (c : N) (rest : jsstring) :
  c <> 120%N -> c <> 88%N ->
  parseInt (48%N :: c :: rest)
  = Some (digitsValue 10 (takeDigits 10 (48%N :: c :: rest))) /\
  parseInt (45%N :: 48%N :: c :: rest)
  = Some (-1 * digitsValue 10 (takeDigits 10 (48%N :: c :: rest))).
Proof.
  intros Hx HX. unfold parseInt.
  destruct c as [|p]; [split; reflexivity|].
  do 7 (try (destruct p as [p|p|]));
    try congruence;
    split; cbn -[digitsValue Z.mul]; f_equal; lia.
Qed.

Lemma parseInt_digits_then (d : Decimal.uint) (c : N) (rest : jsstring) :
  d <> Decimal.Nil ->
  digitValue 10 c = None -> c <> 120%N -> c <> 88%N ->
  parseInt (digitCodes d ++ c :: rest)
  = Some (digitsValue 10 (digitValues d)) /\
  parseInt (45%N :: digitCodes d ++ c :: rest)
  = Some (- digitsValue 10 (digitValues d)).
Proof.
  intros Hd Hc Hx HX.
  rewrite <- (takeDigits_digitCodes_then d c rest Hc).
  replace (- digitsValue 10 (takeDigits 10 (digitCodes d ++ c :: rest)))
    with (-1 * digitsValue 10 (takeDigits 10 (digitCodes d ++ c :: rest)))
    by lia.
  destruct d as [|d|d|d|d|d|d|d|d|d|d]; [congruence|..];
    try (split; unfold parseInt; cbn -[digitsValue Z.mul];
         f_equal; lia).
  destruct d; try (split; unfold parseInt;
                   cbn -[digitsValue Z.mul]; f_equal; lia).
  apply parseInt_zero_then; assumption.
Qed.

Lemma parseInt_no_digit (c : N) (rest : jsstring) :
  isWhiteSpace c = false -> c <> 45%N -> c <> 43%N ->
  digitValue 10 c = None ->
  parseInt (c :: rest) = None.
Proof.
  intros Hws Hminus Hplus Hnd.
  assert (H48 : c <> 48%N) by (intros ->; discriminate Hnd).
  unfold parseInt. cbn [trimStart]. rewrite Hws.
  destruct c as [|p]; [reflexivity|].
  do 7 (try (destruct p as [p|p|]));
    try congruence;
    cbn -[digitValue digitsValue Z.mul]; rewrite Hnd; reflexivity.
Qed.

(** X30. How a numeric column is read ([parseInt(..) || 0]).  A field that
    is empty, or whose first code unit is neither white space, nor a sign,
    nor a digit, reads as 0.  A field that starts with an integer up to
    2^53 in absolute value written in decimal (as [String] writes it, with
    its minus sign when negative) reads as that number, whatever follows
    it: the rest, decimals included, is dropped, provided the code unit
    after the digits is no digit and no x or X. *)
Theorem numeric_field_reading :
  parseIntOr0 [] = 0 /\
  (forall c rest,
     isWhiteSpace c = false -> c <> 45%N -> c <> 43%N ->
     ~ (48 <= c <= 57)%N ->
     parseIntOr0 (c :: rest) = 0) /\
  (forall n,
     Z.abs n <= two53 ->
     parseIntOr0 (numberToString n) = n /\
     toDouble (parseIntOr0 (numberToString n)) = ofInt n) /\
  (forall n c rest,
     Z.abs n <= two53 ->
     ~ (48 <= c <= 57)%N -> c <> 120%N -> c <> 88%N ->
     parseIntOr0 (numberToString n ++ c :: rest) = n /\
     toDouble (parseIntOr0 (numberToString n ++ c :: rest)) = ofInt n).
Proof.
  split; [reflexivity|]. split; [|split].
  - intros c rest Hws Hminus Hplus Hd. unfold parseIntOr0.
    rewrite parseInt_no_digit; auto using digitValue_decimal_none.
  - intros n Hsafe.
    assert (Hread : parseIntOr0 (numberToString n) = n)
      by (unfold parseIntOr0; rewrite parseInt_numberToString; reflexivity).
    rewrite Hread. split; [reflexivity | apply roundToDouble_int, Hsafe].
  - intros n c rest Hsafe Hd Hx HX.
    enough (Hread : parseIntOr0 (numberToString n ++ c :: rest) = n)
      by (rewrite Hread; split; [reflexivity | apply roundToDouble_int, Hsafe]).
    unfold parseIntOr0, numberToString.
    apply digitValue_decimal_none in Hd.
    destruct n as [|p|p]; unfold Z.to_int.
    + destruct (parseInt_digits_then Decimal.zero c rest
                  ltac:(discriminate) Hd Hx HX) as [-> _]. reflexivity.
    + destruct (parseInt_digits_then (Pos.to_uint p) c rest
                  (DecimalPos.Unsigned.to_uint_nonnil p) Hd Hx HX) as [-> _].
      rewrite digitsValue_digitValues, DecimalPos.Unsigned.of_to.
      reflexivity.
    + destruct (parseInt_digits_then (Pos.to_uint p) c rest
                  (DecimalPos.Unsigned.to_uint_nonnil p) Hd Hx HX) as [_ H].
      cbn [app]. rewrite H.
      rewrite digitsValue_digitValues, DecimalPos.Unsigned.of_to.
      reflexivity.
Qed.

Lemma numeric_field_reading_witness :
  parseIntOr0 (lit "abc") = 0 /\
  parseIntOr0 (lit "12.50") = 12 /\
  parseIntOr0 (lit "-7 units") = -7.
Proof.
  destruct numeric_field_reading as (_ & Hword & _ & Hprefix).
  split; [apply (Hword 97%N (lit "bc")); (reflexivity || lia)|].
  split.
  - apply (Hprefix 12 46%N (lit "50")); (lia || (vm_compute; discriminate)).
  - apply (Hprefix (-7) 32%N (lit "units"));
      (lia || (vm_compute; discriminate)).
Defined.

